(** * miws_sqs_lab: the SQS producer and the Caesar-cipher worker

    A shallow embedding of [producer_sqs.py] and [worker_sqs.py].

    - Python [str] values are lists of Unicode code points ([Z]); [ord] and
      [chr] are the identity on such code points.
    - Python [int] is [Z]; [%] with a positive divisor is [Z.modulo].
    - A [dict] is an insertion-ordered association list with unique keys.
    - The boto3 client and the wall clock form the environment: a state [S]
      with one transition function per call (class [SQSClient]).
    - Exceptions are values of [exn]; methods run in a state-and-exception
      monad [M] whose state also keeps a history of the calls that were made.
    - Console output is not kept.  A [print] is modelled where it formats a
      value taken from a message, because it raises when that text cannot be
      encoded; a [print] of fixed text and numbers has no effect here. *)

From Stdlib Require Import ZArith List Bool Lia String Ascii.
From Stdlib Require Import DecimalString.
From Stdlib Require DecimalNat.
Import ListNotations.
Local Open Scope Z_scope.

(** ** Python values *)

Definition pystr := list Z.

(** A string literal of the source, as code points. *)
Definition str (s : string) : pystr :=
  map (fun a => Z.of_N (N_of_ascii a)) (list_ascii_of_string s).

Definition pystr_eq_dec : forall a b : pystr, {a = b} + {a <> b} :=
  list_eq_dec Z.eq_dec.

Definition pystr_eqb (a b : pystr) : bool :=
  if pystr_eq_dec a b then true else false.

Local Set Warnings "-register-all".

(** The values [json.loads] can produce.  A float is carried as its
    binary64 bit pattern; the program never inspects one. *)
Inductive pyval : Type :=
| PNone
| PBool (b : bool)
| PInt (n : Z)
| PFloat (bits : Z)
| PStr (s : pystr)
| PList (items : list pyval)
| PDict (d : list (pystr * pyval)).

Definition dict := list (pystr * pyval).

(** [d.get(k)] *)
Fixpoint dict_get (k : pystr) (d : dict) : option pyval :=
  match d with
  | [] => None
  | (k', v) :: d' => if pystr_eqb k k' then Some v else dict_get k d'
  end.

(** [d[k] = v]: an existing key keeps its position, a new key goes last. *)
Fixpoint dict_set (k : pystr) (v : pyval) (d : dict) : dict :=
  match d with
  | [] => [(k, v)]
  | (k', v') :: d' =>
      if pystr_eqb k k' then (k', v) :: d' else (k', v') :: dict_set k v d'
  end.

(** [d.get(k, default)] *)
Definition dict_get_default (k : pystr) (default : pyval) (d : dict) : pyval :=
  match dict_get k d with
  | Some v => v
  | None => default
  end.

(** ** Exceptions *)

Inductive exn : Type :=
| ClientError (code : pystr)      (* botocore.exceptions.ClientError, with
                                     e.response['Error']['Code'] *)
| JSONDecodeError
| KeyboardInterrupt
| TypeError
| AttributeError
| KeyError
| UnboundLocalError
| OtherException (name : pystr).  (* any other exception class *)

Inductive result (A : Type) : Type :=
| Ok (a : A)
| Raise (e : exn).
Arguments Ok {A} a.
Arguments Raise {A} e.

Definition is_ClientError (e : exn) : bool :=
  match e with ClientError _ => true | _ => false end.

(** Two of the other classes: what [json.loads] raises on a body nested too
    deeply, and what [print] raises on text the output cannot encode. *)
Definition RecursionError : exn := OtherException (str "RecursionError").
Definition UnicodeEncodeError : exn := OtherException (str "UnicodeEncodeError").

(** ** [print] of an f-string with one formatted value

    The literal part of each message is fixed text.  A [str] value is
    written as it is, and the UTF-8 output refuses a lone surrogate
    (U+D800 to U+DFFF); any other value is written through [repr], which
    escapes what cannot be printed. *)
Definition is_surrogate (c : Z) : bool := (55296 <=? c) && (c <=? 57343).

Definition encodable (s : pystr) : bool := negb (existsb is_surrogate s).

Definition printable (v : pyval) : bool :=
  match v with
  | PStr s => encodable s
  | _ => true
  end.

Definition print_formatted (v : pyval) : result unit :=
  if printable v then Ok tt else Raise UnicodeEncodeError.

(** ** The character classification used by [str.isalpha] and [str.isupper]

    On ASCII both predicates are fixed: the letters are A-Z and a-z.  Above
    ASCII they are given by the Unicode character database, which is a table
    of the interpreter and is taken as a parameter. *)

Record ucd : Type := {
  alphabetic : Z -> bool;   (* general categories Lu, Ll, Lt, Lm, Lo *)
  uppercase : Z -> bool
}.

Definition ord_A : Z := 65.
Definition ord_a : Z := 97.

Definition ascii_upper (c : Z) : bool := (ord_A <=? c) && (c <=? 90).
Definition ascii_lower (c : Z) : bool := (ord_a <=? c) && (c <=? 122).
Definition ascii_letter (c : Z) : bool := ascii_upper c || ascii_lower c.

Definition char_isalpha (U : ucd) (c : Z) : bool :=
  if c <? 128 then ascii_letter c else alphabetic U c.

Definition char_isupper (U : ucd) (c : Z) : bool :=
  if c <? 128 then ascii_upper c else uppercase U c.

(** [s.isalpha()] for a [str] of any length: non-empty and all alphabetic. *)
Definition str_isalpha (U : ucd) (s : pystr) : bool :=
  match s with
  | [] => false
  | _ => forallb (char_isalpha U) s
  end.

(** The rows of the character database for the Latin-1 Supplement and the
    basic Cyrillic letters, enough to run the program on text such as the
    producer's own sample messages. *)
Definition in_range (lo hi c : Z) : bool := (lo <=? c) && (c <=? hi).

Definition ucd_latin_cyrillic : ucd := {|
  alphabetic c :=
    (c =? 170) || (c =? 181) || (c =? 186)
    || in_range 192 214 c || in_range 216 246 c || in_range 248 255 c
    || in_range 1040 1103 c;
  uppercase c :=
    in_range 192 214 c || in_range 216 222 c || in_range 1040 1071 c
|}.

(** ** worker_sqs.py: [caesar_cipher] *)

Module Cipher.
Section Cipher.
Variable U : ucd.
Variable shift : Z.   (* self.shift *)

(** The body of the [for char in text] loop for a one-character [char]. *)
Definition caesar_char (char : Z) : Z :=
  if char_isalpha U char then
    let base := if char_isupper U char then ord_A else ord_a in
    let shifted := (char - base + shift) mod 26 in
    base + shifted
  else char.

(** [caesar_cipher] on a [str]. *)
Definition caesar_cipher (text : pystr) : pystr := map caesar_char text.

(** The loop body for an arbitrary item of an iterable: [isalpha] exists
    only on [str], and [ord] wants exactly one character. *)
Definition caesar_item (item : pyval) : result pystr :=
  match item with
  | PStr s =>
      if str_isalpha U s then
        match s with
        | [c] => Ok [caesar_char c]
        | _ => Raise TypeError
        end
      else Ok s
  | _ => Raise AttributeError
  end.

Fixpoint caesar_items (items : list pyval) : result pystr :=
  match items with
  | [] => Ok []
  | item :: rest =>
      match caesar_item item with
      | Ok s =>
          match caesar_items rest with
          | Ok r => Ok (s ++ r)
          | Raise e => Raise e
          end
      | Raise e => Raise e
      end
  end.

(** What [for char in text] iterates over. *)
Definition py_iter (text : pyval) : result (list pyval) :=
  match text with
  | PStr s => Ok (map (fun c => PStr [c]) s)
  | PList items => Ok items
  | PDict d => Ok (map (fun kv => PStr (fst kv)) d)
  | _ => Raise TypeError
  end.

(** [caesar_cipher] on whatever [payload.get('message', '')] returned. *)
Definition caesar_cipher_dyn (text : pyval) : result pystr :=
  match py_iter text with
  | Ok items => caesar_items items
  | Raise e => Raise e
  end.

End Cipher.
End Cipher.

(** ** The environment: the boto3 SQS client and the clock *)

Record message : Type := { ReceiptHandle : pystr; Body : pystr }.

Record entry : Type := { Id : pystr; MessageBody : pystr }.

Record sent : Type := { sent_Id : pystr; MessageId : pystr }.

Record failure : Type := { failed_Id : pystr; Code : pystr; SenderFault : bool }.

(** The dict returned by [send_message_batch]; a key that is absent is
    [None].  The empty dict [{}] has no key at all. *)
Record batch_response : Type := {
  Successful : option (list sent);
  Failed : option (list failure);
  ResponseMetadata : option pystr
}.

Definition empty_dict : batch_response :=
  {| Successful := None; Failed := None; ResponseMetadata := None |}.

Definition attributes := list (pystr * pystr).

(** One transition per client method.  Each either returns the part of the
    response the program reads, or raises. *)
Class SQSClient (S : Type) : Type := {
  get_queue_url : pystr -> S -> result pystr * S;
  create_queue : pystr -> attributes -> S -> result pystr * S;
  send_message_batch : pystr -> list entry -> S -> result batch_response * S;
  (* QueueUrl, MaxNumberOfMessages, WaitTimeSeconds; the result is
     response.get('Messages', []) *)
  receive_message : pystr -> Z -> Z -> S -> result (list message) * S;
  delete_message : pystr -> pystr -> S -> result unit * S;
  get_queue_attributes : pystr -> S -> result attributes * S;
  (* datetime.now().isoformat() *)
  now_isoformat : S -> pystr * S
}.

(** The history of what a run did to its environment, oldest first.
    [ProcessMessage] records an invocation of the worker's own
    [process_message]. *)
Inductive event : Type :=
| GetQueueUrl (QueueName : pystr)
| CreateQueue (QueueName : pystr) (Attributes : attributes)
| SendMessageBatch (QueueUrl : pystr) (Entries : list entry)
| ReceiveMessage (QueueUrl : pystr) (MaxNumberOfMessages WaitTimeSeconds : Z)
| DeleteMessage (QueueUrl : pystr) (rh : pystr)
| GetQueueAttributes (QueueUrl : pystr)
| ProcessMessage (payload : pyval).

Definition is_ReceiveMessage (ev : event) : bool :=
  match ev with ReceiveMessage _ _ _ => true | _ => false end.

Definition is_CreateQueue (ev : event) : bool :=
  match ev with CreateQueue _ _ => true | _ => false end.

Definition is_SendMessageBatch (ev : event) : bool :=
  match ev with SendMessageBatch _ _ => true | _ => false end.

Definition is_DeleteMessage (ev : event) : bool :=
  match ev with DeleteMessage _ _ => true | _ => false end.

Record world (S : Type) : Type := { sqs : S; history : list event }.
Arguments sqs {S} _.
Arguments history {S} _.

(** ** The state-and-exception monad *)

Definition M (St A : Type) : Type := St -> result A * St.

Definition ret {St A} (a : A) : M St A := fun st => (Ok a, st).

Definition raise {St A} (e : exn) : M St A := fun st => (Raise e, st).

Definition bind {St A B} (m : M St A) (k : A -> M St B) : M St B :=
  fun st =>
    match m st with
    | (Ok a, st') => k a st'
    | (Raise e, st') => (Raise e, st')
    end.

Definition gets {St A} (f : St -> A) : M St A := fun st => (Ok (f st), st).

Definition modify {St} (f : St -> St) : M St unit := fun st => (Ok tt, f st).

(** [try: m  except <the classes h accepts>: h e].  An exception for which
    [h] gives [None] is not caught. *)
Definition try_except {St A} (m : M St A) (h : exn -> option (M St A)) : M St A :=
  fun st =>
    match m st with
    | (Ok a, st') => (Ok a, st')
    | (Raise e, st') =>
        match h e with
        | Some handler => handler st'
        | None => (Raise e, st')
        end
    end.

(** [try: m  finally: f] *)
Definition try_finally {St A} (m : M St A) (f : M St unit) : M St A :=
  fun st =>
    match m st with
    | (r, st') =>
        match f st' with
        | (Ok _, st'') => (r, st'')
        | (Raise e, st'') => (Raise e, st'')
        end
    end.

Definition lift_result {St A} (r : result A) : M St A := fun st => (r, st).

Declare Scope py_scope.
Delimit Scope py_scope with py.
Notation "x <- m ;; k" := (bind m (fun x => k))
  (at level 61, m at next level, right associativity) : py_scope.
Notation "m ;;; k" := (bind m (fun _ => k))
  (at level 61, right associativity) : py_scope.

(** A client call: run the transition and append the event. *)
Definition call {S A} (f : S -> result A * S) (ev : event) : M (world S) A :=
  fun w =>
    match f (sqs w) with
    | (r, s') => (r, {| sqs := s'; history := history w ++ [ev] |})
    end.

(** Reading the clock leaves no event. *)
Definition clock {S} `{SQSClient S} : M (world S) pystr :=
  fun w =>
    match now_isoformat (sqs w) with
    | (t, s') => (Ok t, {| sqs := s'; history := history w |})
    end.

(** [str(idx)] for a non-negative index. *)
Definition str_of_nat (n : nat) : pystr :=
  str (NilEmpty.string_of_uint (Nat.to_uint n)).

(** ** worker_sqs.py: [SQSCipherWorker] *)

Module Worker.

Record worker : Type := {
  queue_name : pystr;
  region_name : pystr;
  shift : Z;
  processed_count : Z;
  queue_url : pystr
}.

(** The worker object, its environment, and the local variable
    [receipt_handle] of the running [consume_message] frame ([None] while
    it is unbound). *)
Record wstate (S : Type) : Type := {
  self : worker;
  env : world S;
  receipt_handle : option pystr
}.
Arguments self {S} _.
Arguments env {S} _.
Arguments receipt_handle {S} _.

Inductive loop_exit : Type := Continue | Break.

Section Worker.
Context {S : Type} `{SQSClient S}.
Variable U : ucd.
(** [json.loads]: the value, or the exception it raises.  That is
    [JSONDecodeError] for text that is no JSON, and can be another class
    ([RecursionError] on deep nesting, [ValueError] on an integer past the
    digit limit). *)
Variable json_loads : pystr -> result pyval.

Local Open Scope py_scope.
Local Abbreviation W := (M (wstate S)).

Definition in_env {A} (m : M (world S) A) : W A :=
  fun st =>
    match m (env st) with
    | (r, w') =>
        (r, {| self := self st; env := w'; receipt_handle := receipt_handle st |})
    end.

Definition log (ev : event) : W unit :=
  in_env (fun w => (Ok tt, {| sqs := sqs w; history := history w ++ [ev] |})).

Definition bind_receipt_handle (v : option pystr) : W unit :=
  modify (fun st => {| self := self st; env := env st; receipt_handle := v |}).

(** Reading the local variable; unbound raises [UnboundLocalError]. *)
Definition read_receipt_handle : W pystr :=
  v <- gets receipt_handle ;;
  match v with
  | Some rh => ret rh
  | None => raise UnboundLocalError
  end.

(** [self.processed_count += 1] *)
Definition incr_processed_count : W unit :=
  modify (fun st =>
    {| self := {| queue_name := queue_name (self st);
                  region_name := region_name (self st);
                  shift := shift (self st);
                  processed_count := processed_count (self st) + 1;
                  queue_url := queue_url (self st) |};
       env := env st;
       receipt_handle := receipt_handle st |}).

(** [json.loads(body)] *)
Definition loads (body : pystr) : W pyval :=
  lift_result (json_loads body).

(** [d[k]] *)
Definition dict_getitem (k : pystr) (d : dict) : W pyval :=
  match dict_get k d with
  | Some v => ret v
  | None => raise KeyError
  end.

Definition process_message (payload : pyval) : W dict :=
  log (ProcessMessage payload) ;;;
  match payload with
  | PDict payload =>
      let original := dict_get_default (str "message") (PStr []) payload in
      k <- gets (fun st => shift (self st)) ;;
      encrypted <- lift_result (Cipher.caesar_cipher_dyn U k original) ;;
      let payload := dict_set (str "original_message") original payload in
      let payload := dict_set (str "encrypted_message") (PStr encrypted) payload in
      let payload := dict_set (str "status") (PStr (str "processed")) payload in
      now <- in_env clock ;;
      let payload := dict_set (str "processed_at") (PStr now) payload in
      k <- gets (fun st => shift (self st)) ;;
      let payload := dict_set (str "cipher_shift") (PInt k) payload in
      ret payload
  | _ => raise AttributeError   (* no [get] on a non-dict *)
  end.

Definition sqs_receive_message : W (list message) :=
  url <- gets (fun st => queue_url (self st)) ;;
  in_env (call (receive_message url 1 20) (ReceiveMessage url 1 20)).

Definition sqs_delete_message (rh : pystr) : W unit :=
  url <- gets (fun st => queue_url (self st)) ;;
  in_env (call (delete_message url rh) (DeleteMessage url rh)).

Definition consume_message : W (option dict) :=
  bind_receipt_handle None ;;;
  try_except
    (messages <- sqs_receive_message ;;
     match messages with
     | [] => ret None
     | message :: _ =>
         bind_receipt_handle (Some (ReceiptHandle message)) ;;;
         payload <- loads (Body message) ;;
         processed <- process_message payload ;;
         rh <- read_receipt_handle ;;
         sqs_delete_message rh ;;;
         incr_processed_count ;;;
         ret (Some processed)
     end)
    (fun e =>
       match e with
       | ClientError _ => Some (ret None)
       | JSONDecodeError =>
           Some (try_except
                   (rh <- read_receipt_handle ;; sqs_delete_message rh)
                   (fun _ => Some (ret tt)) ;;;
                 ret None)
       | _ => None
       end).

Definition get_queue_stats : W attributes :=
  try_except
    (url <- gets (fun st => queue_url (self st)) ;;
     in_env (call (get_queue_attributes url) (GetQueueAttributes url)))
    (fun e =>
       match e with
       | ClientError _ => Some (ret [])
       | _ => None
       end).

Definition _shutdown : W unit :=
  get_queue_stats ;;; ret tt.

(** [max_messages and self.processed_count >= max_messages] as a condition:
    [None] and [0] are both false in Python. *)
Definition limit_reached (max_messages : option Z) (count : Z) : bool :=
  match max_messages with
  | None => false
  | Some m => if m =? 0 then false else count >=? m
  end.

(** [if result:] for an [Optional[Dict]]: [None] and [{}] are false. *)
Definition truthy (result : option dict) : bool :=
  match result with
  | None | Some [] => false
  | Some _ => true
  end.

(** One pass through the body of [while True].  Of the four prints after a
    processed message, the first writes the counter; the other three format
    the fields they read from the result. *)
Definition loop_body (continuous : bool) (max_messages : option Z) : W loop_exit :=
  count <- gets (fun st => processed_count (self st)) ;;
  if limit_reached max_messages count then ret Break
  else
    result <- consume_message ;;
    if truthy result then
      match result with
      | Some result =>
          original <- dict_getitem (str "original_message") result ;;
          lift_result (print_formatted original) ;;;
          encrypted <- dict_getitem (str "encrypted_message") result ;;
          lift_result (print_formatted encrypted) ;;;
          processed_at <- dict_getitem (str "processed_at") result ;;
          lift_result (print_formatted processed_at) ;;;
          ret Continue
      | None => ret Continue
      end
    else if negb continuous then ret Break
    else ret Continue.

(** [while True: ...], run for at most [fuel] passes.  The answer is
    [true] when the loop was left by [break] and [false] when the passes
    ran out with the loop still going. *)
Fixpoint while_true (fuel : nat) (continuous : bool) (max_messages : option Z)
  : W bool :=
  match fuel with
  | O => ret false
  | Datatypes.S fuel' =>
      c <- loop_body continuous max_messages ;;
      match c with
      | Break => ret true
      | Continue => while_true fuel' continuous max_messages
      end
  end.

(** [start]: the initial statistics, then the loop under
    [except KeyboardInterrupt] and [finally: self._shutdown()].  A run
    whose passes ran out is still inside the loop: no shutdown yet. *)
Definition start (fuel : nat) (continuous : bool) (max_messages : option Z)
  : W bool :=
  get_queue_stats ;;;
  fun st =>
    match try_except (while_true fuel continuous max_messages)
            (fun e => match e with
                      | KeyboardInterrupt => Some (ret true)
                      | _ => None
                      end) st with
    | (Ok false, st') => (Ok false, st')
    | (r, st') => try_finally (lift_result r) _shutdown st'
    end.

End Worker.

(** The state in which [process_message] runs after a receive that returned
    [m] and left the service in [s1]. *)
Definition leased {S} (st : wstate S) (m : message) (s1 : S) : wstate S :=
  {| self := self st;
     env := {| sqs := s1;
               history := history (env st)
                          ++ [ReceiveMessage (queue_url (self st)) 1 20] |};
     receipt_handle := Some (ReceiptHandle m) |}.

(** The keys [process_message] assigns. *)
Definition changed_keys : list pystr :=
  [ str "original_message"; str "encrypted_message"; str "status";
    str "processed_at"; str "cipher_shift" ].

(** What the properties observe of a worker state. *)
Definition count {S} (st : wstate S) : Z := processed_count (self st).
Definition calls {S} (st : wstate S) : list event := history (env st).

End Worker.

(** ** producer_sqs.py: [SQSMessageProducer] *)

Module Producer.

Record producer : Type := {
  queue_name : pystr;
  region_name : pystr;
  queue_url : pystr
}.

Record pstate (S : Type) : Type := {
  self : producer;
  env : world S
}.
Arguments self {S} _.
Arguments env {S} _.

Definition NonExistentQueue : pystr :=
  str "AWS.SimpleQueueService.NonExistentQueue".

(** The attributes of a queue the producer creates. *)
Definition queue_attributes : attributes :=
  [ (str "MessageRetentionPeriod", str "345600");
    (str "VisibilityTimeout", str "60");
    (str "ReceiveMessageWaitTimeSeconds", str "20") ].

(** [len(response.get(key, []))] *)
Definition len_or_empty {A} (field : option (list A)) : nat :=
  match field with
  | Some l => List.length l
  | None => 0%nat
  end.

Section Producer.
Context {S : Type} `{SQSClient S}.
(** [json.dumps] *)
Variable json_dumps : pyval -> pystr.

Local Open Scope py_scope.
Local Abbreviation P := (M (pstate S)).

Definition in_env {A} (m : M (world S) A) : P A :=
  fun st =>
    match m (env st) with
    | (r, w') => (r, {| self := self st; env := w' |})
    end.

Definition _get_or_create_queue : P pystr :=
  name <- gets (fun st => queue_name (self st)) ;;
  try_except
    (in_env (call (get_queue_url name) (GetQueueUrl name)))
    (fun e =>
       match e with
       | ClientError code =>
           Some (if pystr_eqb code NonExistentQueue then
                   in_env (call (create_queue name queue_attributes)
                                (CreateQueue name queue_attributes))
                 else raise e)
       | _ => None
       end).

(** The [for idx, msg in enumerate(messages)] loop, from index [idx] on. *)
Fixpoint build_entries (idx : nat) (messages : list pyval) : P (list entry) :=
  match messages with
  | [] => ret []
  | msg :: rest =>
      now <- in_env clock ;;
      let payload :=
        PDict [ (str "message", msg);
                (str "timestamp", PStr now);
                (str "status", PStr (str "pending")) ] in
      let e := {| Id := str_of_nat idx; MessageBody := json_dumps payload |} in
      entries <- build_entries (Datatypes.S idx) rest ;;
      ret (e :: entries)
  end.

Definition send_batch (messages : list pyval) : P batch_response :=
  entries <- build_entries 0 messages ;;
  try_except
    (url <- gets (fun st => queue_url (self st)) ;;
     response <- in_env (call (send_message_batch url entries)
                              (SendMessageBatch url entries)) ;;
     let successful := len_or_empty (Successful response) in
     let failed := len_or_empty (Failed response) in
     ret response)
    (fun e =>
       match e with
       | ClientError _ => Some (ret empty_dict)
       | _ => None
       end).

End Producer.

Definition calls {S} (st : pstate S) : list event := history (env st).

(** The number of entries of each [send_message_batch] call of a history. *)
Fixpoint batch_sizes (evs : list event) : list nat :=
  match evs with
  | [] => []
  | SendMessageBatch _ entries :: evs' => List.length entries :: batch_sizes evs'
  | _ :: evs' => batch_sizes evs'
  end.

End Producer.

(** ** A scripted client, for running the program on concrete inputs

    [visible] are the messages still in the queue: a receive leases the first
    one.  Every other call answers with the reply scripted for it. *)

Record script : Type := {
  visible : list message;
  on_lookup : result pystr;
  on_create : result pystr;
  on_batch : list entry -> result batch_response;
  on_delete : result unit;
  on_attributes : result attributes;
  time : pystr
}.

#[export] Instance scripted_client : SQSClient script := {|
  get_queue_url _ s := (on_lookup s, s);
  create_queue _ _ s := (on_create s, s);
  send_message_batch _ entries s := (on_batch s entries, s);
  receive_message _ _ _ s :=
    match visible s with
    | [] => (Ok [], s)
    | m :: rest =>
        (Ok [m], {| visible := rest; on_lookup := on_lookup s;
                    on_create := on_create s; on_batch := on_batch s;
                    on_delete := on_delete s; on_attributes := on_attributes s;
                    time := time s |})
    end;
  delete_message _ _ s := (on_delete s, s);
  get_queue_attributes _ s := (on_attributes s, s);
  now_isoformat s := (time s, s)
|}.

Definition the_url : pystr := str "https://sqs.us-east-1.amazonaws.com/1/message-queue".

(** A service that accepts the whole batch. *)
Definition accept_all (entries : list entry) : result batch_response :=
  Ok {| Successful := Some (map (fun e => {| sent_Id := Id e; MessageId := Id e |}) entries);
        Failed := None;
        ResponseMetadata := Some (str "req-1") |}.

Definition script0 (msgs : list message) (del : result unit) : script := {|
  visible := msgs;
  on_lookup := Ok the_url;
  on_create := Ok the_url;
  on_batch := accept_all;
  on_delete := del;
  on_attributes := Ok [];
  time := str "2024-01-01T00:00:00"
|}.

(** The bodies of the messages of the scenarios, and [json.loads] on them;
    any other body is outside this table and is answered like text that is
    no JSON. *)
Definition quoted (s : string) : pystr := [34] ++ str s ++ [34].
Definition body_hola : pystr :=
  str "{" ++ quoted "message" ++ str ": " ++ quoted "Hola" ++ str "}".
Definition body_not_json : pystr := str "{not json".

(** A body of a thousand opening brackets, on which [json.loads] raises
    [RecursionError]. *)
Definition body_deep : pystr := repeat 91 1000.

Definition loads_table (body : pystr) : result pyval :=
  if pystr_eqb body body_hola then Ok (PDict [(str "message", PStr (str "Hola"))])
  else if pystr_eqb body body_deep then Raise RecursionError
  else Raise JSONDecodeError.

Definition the_worker (count : Z) : Worker.worker := {|
  Worker.queue_name := str "message-queue";
  Worker.region_name := str "us-east-1";
  Worker.shift := 3;
  Worker.processed_count := count;
  Worker.queue_url := the_url
|}.

Definition wstate0 (msgs : list message) (del : result unit) : Worker.wstate script := {|
  Worker.self := the_worker 0;
  Worker.env := {| sqs := script0 msgs del; history := [] |};
  Worker.receipt_handle := None
|}.

Definition the_producer : Producer.producer := {|
  Producer.queue_name := str "message-queue";
  Producer.region_name := str "us-east-1";
  Producer.queue_url := the_url
|}.

Definition pstate0 (s : script) : Producer.pstate script := {|
  Producer.self := the_producer;
  Producer.env := {| sqs := s; history := [] |}
|}.

Definition msg_hola : message := {| ReceiptHandle := str "rh-1"; Body := body_hola |}.
Definition msg_poison : message := {| ReceiptHandle := str "rh-2"; Body := body_not_json |}.
Definition msg_deep : message := {| ReceiptHandle := str "rh-5"; Body := body_deep |}.

(** [json.dumps] on the producer's envelope when its three values are
    strings that need no escape; other values are outside this table. *)
Definition dumps_envelope (v : pyval) : pystr :=
  match v with
  | PDict [(k1, PStr v1); (k2, PStr v2); (k3, PStr v3)] =>
      str "{" ++ [34] ++ k1 ++ [34] ++ str ": " ++ [34] ++ v1 ++ [34] ++ str ", "
      ++ [34] ++ k2 ++ [34] ++ str ": " ++ [34] ++ v2 ++ [34] ++ str ", "
      ++ [34] ++ k3 ++ [34] ++ str ": " ++ [34] ++ v3 ++ [34] ++ str "}"
  | _ => []
  end.

Definition batch_of (n : nat) : list pyval :=
  map (fun i => PStr (str "Mensaje batch " ++ str_of_nat i)) (seq 1 n).

(** A service that rejects the batch call. *)
Definition script_batch_raises (e : exn) : script := {|
  visible := [];
  on_lookup := Ok the_url;
  on_create := Ok the_url;
  on_batch := fun _ => Raise e;
  on_delete := Ok tt;
  on_attributes := Ok [];
  time := str "2024-01-01T00:00:00"
|}.

(** A service whose lookup answers [r]. *)
Definition script_lookup (r : result pystr) : script := {|
  visible := [];
  on_lookup := r;
  on_create := Ok the_url;
  on_batch := accept_all;
  on_delete := Ok tt;
  on_attributes := Ok [];
  time := str "2024-01-01T00:00:00"
|}.

(** One of the sample messages the producer's [main] sends,
    "Este mensaje ser\u00e1 cifrado", and two letters outside ASCII. *)
Definition a_acute : Z := 225.      (* U+00E1, lowercase *)
Definition n_tilde : Z := 241.      (* U+00F1, lowercase *)
Definition cyrillic_zhe : Z := 1046. (* U+0416, uppercase *)

Definition sample_message : pystr :=
  str "Este mensaje ser" ++ [a_acute] ++ str " cifrado".

(** ** The rest of the two classes: construction and the single send *)

Module WorkerSetup.
Section WorkerSetup.
Context {S : Type} `{SQSClient S}.

Local Open Scope py_scope.

(** [_get_queue_url]: the handler prints and raises the same error again.
    It runs while [__init__] is still filling the object, so the name it
    reads from [self] is passed in. *)
Definition _get_queue_url (queue_name : pystr) : M (world S) pystr :=
  try_except
    (call (get_queue_url queue_name) (GetQueueUrl queue_name))
    (fun e =>
       match e with
       | ClientError _ => Some (raise e)
       | _ => None
       end).

(** [SQSCipherWorker(queue_name, region_name, shift)], on a client that
    [boto3.client] has already built. *)
Definition __init__ (queue_name region_name : pystr) (shift : Z)
  : M (world S) Worker.worker :=
  url <- _get_queue_url queue_name ;;
  ret {| Worker.queue_name := queue_name;
         Worker.region_name := region_name;
         Worker.shift := shift;
         Worker.processed_count := 0;
         Worker.queue_url := url |}.

End WorkerSetup.
End WorkerSetup.

(** [send_message] of the client: QueueUrl, MessageBody and the
    MessageAttributes as (name, StringValue, DataType); the result is
    response['MessageId']. *)
Definition message_attributes := list (pystr * pystr * pystr).

Class SQSSendClient (S : Type) : Type := {
  client_send_message : pystr -> pystr -> message_attributes -> S -> result pystr * S
}.

Module ProducerSetup.
Section ProducerSetup.
Context {S : Type} `{SQSClient S} `{SQSSendClient S}.
Variable json_dumps : pyval -> pystr.

Local Open Scope py_scope.
Local Abbreviation P := (M (Producer.pstate S)).

(** [SQSMessageProducer(queue_name, region_name)].  [queue_url] is not yet
    bound while [_get_or_create_queue] runs, and that method does not read
    it. *)
Definition __init__ (queue_name region_name : pystr) : M (world S) Producer.producer :=
  fun w =>
    match Producer._get_or_create_queue
            {| Producer.self := {| Producer.queue_name := queue_name;
                                   Producer.region_name := region_name;
                                   Producer.queue_url := [] |};
               Producer.env := w |} with
    | (Ok url, st) =>
        (Ok {| Producer.queue_name := queue_name;
               Producer.region_name := region_name;
               Producer.queue_url := url |}, Producer.env st)
    | (Raise e, st) => (Raise e, Producer.env st)
    end.

(** The client's [send_message]; the history of [world] has no event for
    it, the call shows in the service state. *)
Definition sqs_send_message (url body : pystr) (attrs : message_attributes) : P pystr :=
  fun st =>
    match client_send_message url body attrs (sqs (Producer.env st)) with
    | (r, s') =>
        (r, {| Producer.self := Producer.self st;
               Producer.env := {| sqs := s';
                                  history := history (Producer.env st) |} |})
    end.

Definition send_message (message : pyval) : P bool :=
  try_except
    (now <- Producer.in_env clock ;;
     let payload :=
       PDict [ (str "message", message);
               (str "timestamp", PStr now);
               (str "status", PStr (str "pending")) ] in
     url <- gets (fun st => Producer.queue_url (Producer.self st)) ;;
     let body := json_dumps payload in
     now' <- Producer.in_env clock ;;
     message_id <- sqs_send_message url body
                     [ (str "Timestamp", now', str "String");
                       (str "Source", str "producer-python", str "String") ] ;;
     lift_result (print_formatted message) ;;;
     lift_result (print_formatted (PStr message_id)) ;;;
     ret true)
    (fun e =>
       match e with
       | ClientError _ => Some (ret false)
       | _ => None
       end).

End ProducerSetup.
End ProducerSetup.

(** ** Two more clients for concrete runs *)

(** A client whose receive, delete and attribute calls always give the same
    three replies. *)
Record fixed : Type := {
  fixed_receive : result (list message);
  fixed_delete : result unit;
  fixed_attributes : result attributes
}.

#[export] Instance fixed_client : SQSClient fixed := {|
  get_queue_url _ s := (Ok the_url, s);
  create_queue _ _ s := (Ok the_url, s);
  send_message_batch _ entries s := (accept_all entries, s);
  receive_message _ _ _ s := (fixed_receive s, s);
  delete_message _ _ s := (fixed_delete s, s);
  get_queue_attributes _ s := (fixed_attributes s, s);
  now_isoformat s := (str "2024-01-01T00:00:00", s)
|}.

Definition interrupted : fixed := {|
  fixed_receive := Raise KeyboardInterrupt;
  fixed_delete := Ok tt;
  fixed_attributes := Ok []
|}.

Definition wstate_fixed (s : fixed) : Worker.wstate fixed := {|
  Worker.self := the_worker 0;
  Worker.env := {| sqs := s; history := [] |};
  Worker.receipt_handle := None
|}.

(** A client with a ticking clock that keeps what [send_message] was given;
    [outbox_reply] is what every send answers. *)
Record outbox : Type := {
  ticks : nat;
  sent_bodies : list (pystr * message_attributes);
  outbox_reply : result pystr
}.

Definition tick (s : outbox) : outbox :=
  {| ticks := Datatypes.S (ticks s); sent_bodies := sent_bodies s;
     outbox_reply := outbox_reply s |}.

#[export] Instance outbox_client : SQSClient outbox := {|
  get_queue_url _ s := (Ok the_url, s);
  create_queue _ _ s := (Ok the_url, s);
  send_message_batch _ entries s := (accept_all entries, s);
  receive_message _ _ _ s := (Ok [], s);
  delete_message _ _ s := (Ok tt, s);
  get_queue_attributes _ s := (Ok [], s);
  now_isoformat s := (str "t" ++ str_of_nat (ticks s), tick s)
|}.

#[export] Instance outbox_sender : SQSSendClient outbox := {|
  client_send_message _ body attrs s :=
    (outbox_reply s,
     {| ticks := ticks s; sent_bodies := sent_bodies s ++ [(body, attrs)];
        outbox_reply := outbox_reply s |})
|}.

Definition pstate_outbox (reply : result pystr) : Producer.pstate outbox := {|
  Producer.self := the_producer;
  Producer.env := {| sqs := {| ticks := 0; sent_bodies := []; outbox_reply := reply |};
                     history := [] |}
|}.

(** The envelope the producer builds for "Hola", and [json.loads] on its
    serialisation; any other body is outside this table. *)
Definition envelope_hola : dict :=
  [ (str "message", PStr (str "Hola"));
    (str "timestamp", PStr (str "2023-12-31T23:59:59"));
    (str "status", PStr (str "pending")) ].

Definition loads_envelope (body : pystr) : result pyval :=
  if pystr_eqb body (dumps_envelope (PDict envelope_hola))
  then Ok (PDict envelope_hola)
  else if pystr_eqb body (str "5") then Ok (PInt 5)
  else Raise JSONDecodeError.

Definition msg_envelope : message :=
  {| ReceiptHandle := str "rh-3"; Body := dumps_envelope (PDict envelope_hola) |}.

Definition msg_five : message := {| ReceiptHandle := str "rh-4"; Body := str "5" |}.

(** An exception of botocore that is no [ClientError]. *)
Definition unreachable : exn := OtherException (str "EndpointConnectionError").

(** ** Notions the further properties are stated with *)

(** The call returned, or raised the [ClientError] that the methods catch. *)
Definition answered {A} (r : result A) : bool :=
  match r with
  | Ok _ => true
  | Raise e => is_ClientError e
  end.

(** [process_message] cannot transform [payload] and raises [e]: the payload
    is no dict, or the cipher raises on its message. *)
Definition untransformable (U : ucd) (k : Z) (payload : pyval) (e : exn) : Prop :=
  ((forall d, payload <> PDict d) /\ e = AttributeError)
  \/ exists d, payload = PDict d
               /\ Cipher.caesar_cipher_dyn U k
                    (dict_get_default (str "message") (PStr []) d) = Raise e.

(** The worker state after one statistics read. *)
Definition after_stats {S} `{SQSClient S} (st : Worker.wstate S) : Worker.wstate S :=
  {| Worker.self := Worker.self st;
     Worker.env :=
       {| sqs := snd (get_queue_attributes (Worker.queue_url (Worker.self st))
                        (sqs (Worker.env st)));
          history := history (Worker.env st)
                     ++ [GetQueueAttributes (Worker.queue_url (Worker.self st))] |};
     Worker.receipt_handle := Worker.receipt_handle st |}.

(** The envelope the producer builds around a message. *)
Definition envelope (message : pyval) (timestamp : pystr) : dict :=
  [ (str "message", message);
    (str "timestamp", PStr timestamp);
    (str "status", PStr (str "pending")) ].

(** * Properties *)

(** ** Dictionaries *)

Lemma pystr_eqb_refl (k : pystr) : pystr_eqb k k = true.
Proof. unfold pystr_eqb. destruct (pystr_eq_dec k k); congruence. Qed.

Lemma pystr_eqb_neq (k k' : pystr) : k <> k' -> pystr_eqb k k' = false.
Proof. unfold pystr_eqb. destruct (pystr_eq_dec k k'); congruence. Qed.

Lemma pystr_eqb_eq (k k' : pystr) : pystr_eqb k k' = true -> k = k'.
Proof. unfold pystr_eqb. destruct (pystr_eq_dec k k'); congruence. Qed.

Lemma dict_get_set_same (k : pystr) (v : pyval) (d : dict) :
  dict_get k (dict_set k v d) = Some v.
Proof.
  induction d as [|[k' v'] d IH]; simpl.
  - now rewrite pystr_eqb_refl.
  - destruct (pystr_eqb k k') eqn:E; simpl; rewrite E; auto.
Qed.

Lemma dict_get_set_other (k k0 : pystr) (v : pyval) (d : dict) :
  k <> k0 -> dict_get k (dict_set k0 v d) = dict_get k d.
Proof.
  intros Hne. induction d as [|[k' v'] d IH]; simpl.
  - now rewrite pystr_eqb_neq.
  - destruct (pystr_eqb k0 k') eqn:E; simpl.
    + apply pystr_eqb_eq in E. subst k'. now rewrite pystr_eqb_neq.
    + now rewrite IH.
Qed.

Lemma dict_set_not_empty (k : pystr) (v : pyval) (d : dict) : dict_set k v d <> [].
Proof. destruct d as [|[k' v'] d]; simpl; [|destruct (pystr_eqb k k')]; discriminate. Qed.

(** ** The cipher *)

Section CipherFacts.
Variable U : ucd.

Lemma ascii_upper_range (c : Z) : ascii_upper c = true <-> 65 <= c <= 90.
Proof. unfold ascii_upper, ord_A. rewrite andb_true_iff, !Z.leb_le. tauto. Qed.

Lemma ascii_lower_range (c : Z) : ascii_lower c = true <-> 97 <= c <= 122.
Proof. unfold ascii_lower, ord_a. rewrite andb_true_iff, !Z.leb_le. tauto. Qed.

Lemma ascii_letter_range (c : Z) :
  ascii_letter c = true <-> 65 <= c <= 90 \/ 97 <= c <= 122.
Proof.
  unfold ascii_letter. now rewrite orb_true_iff, ascii_upper_range, ascii_lower_range.
Qed.

Lemma ascii_letter_isalpha (c : Z) : ascii_letter c = true -> char_isalpha U c = true.
Proof.
  intros H. unfold char_isalpha. apply ascii_letter_range in H as Hr.
  destruct (c <? 128) eqn:E; [assumption | apply Z.ltb_ge in E; lia].
Qed.

Lemma ascii_upper_isupper (c : Z) : c < 128 -> char_isupper U c = ascii_upper c.
Proof. intros H. unfold char_isupper. apply Z.ltb_lt in H. now rewrite H. Qed.

(** An uppercase ASCII letter is rotated inside A-Z. *)
Lemma caesar_char_upper (k c : Z) :
  ascii_upper c = true ->
  Cipher.caesar_char U k c = 65 + (c - 65 + k) mod 26
  /\ ascii_upper (Cipher.caesar_char U k c) = true.
Proof.
  intros Hu. apply ascii_upper_range in Hu as Hr.
  assert (Ha : char_isalpha U c = true).
  { apply ascii_letter_isalpha. unfold ascii_letter. now rewrite Hu. }
  assert (Heq : Cipher.caesar_char U k c = 65 + (c - 65 + k) mod 26).
  { unfold Cipher.caesar_char. rewrite Ha, ascii_upper_isupper, Hu by lia. reflexivity. }
  split; [exact Heq|]. rewrite Heq. apply ascii_upper_range.
  pose proof (Z.mod_pos_bound (c - 65 + k) 26). lia.
Qed.

(** A lowercase ASCII letter is rotated inside a-z. *)
Lemma caesar_char_lower (k c : Z) :
  ascii_lower c = true ->
  Cipher.caesar_char U k c = 97 + (c - 97 + k) mod 26
  /\ ascii_lower (Cipher.caesar_char U k c) = true.
Proof.
  intros Hl. apply ascii_lower_range in Hl as Hr.
  assert (Ha : char_isalpha U c = true).
  { apply ascii_letter_isalpha. unfold ascii_letter. rewrite Hl. apply orb_true_r. }
  assert (Hu : ascii_upper c = false).
  { destruct (ascii_upper c) eqn:E; [apply ascii_upper_range in E; lia | reflexivity]. }
  assert (Heq : Cipher.caesar_char U k c = 97 + (c - 97 + k) mod 26).
  { unfold Cipher.caesar_char. rewrite Ha, ascii_upper_isupper, Hu by lia. reflexivity. }
  split; [exact Heq|]. rewrite Heq. apply ascii_lower_range.
  pose proof (Z.mod_pos_bound (c - 97 + k) 26). lia.
Qed.

(** Whatever the classifier says above ASCII, a character that [isalpha]
    accepts comes out as an ASCII letter. *)
Lemma caesar_char_alpha_ascii (k c : Z) :
  char_isalpha U c = true -> ascii_letter (Cipher.caesar_char U k c) = true.
Proof.
  intros Ha. unfold Cipher.caesar_char. rewrite Ha.
  apply ascii_letter_range.
  destruct (char_isupper U c); unfold ord_A, ord_a.
  - pose proof (Z.mod_pos_bound (c - 65 + k) 26). lia.
  - pose proof (Z.mod_pos_bound (c - 97 + k) 26). lia.
Qed.

Lemma caesar_char_not_alpha (k c : Z) :
  char_isalpha U c = false -> Cipher.caesar_char U k c = c.
Proof. intros Ha. unfold Cipher.caesar_char. now rewrite Ha. Qed.

Lemma rotate_back (k x : Z) : 0 <= x < 26 -> ((x + k) mod 26 + - k) mod 26 = x.
Proof.
  intros Hx. rewrite Zplus_mod_idemp_l.
  replace (x + k + - k) with x by lia. now apply Z.mod_small.
Qed.

(** On a character that is an ASCII letter or no letter at all, shifting by
    [k] and then by [-k] gives the character back. *)
Lemma caesar_char_inverse (k c : Z) :
  (char_isalpha U c = true -> ascii_letter c = true) ->
  Cipher.caesar_char U (- k) (Cipher.caesar_char U k c) = c.
Proof.
  intros Hascii. destruct (char_isalpha U c) eqn:Ha.
  - specialize (Hascii eq_refl). unfold ascii_letter in Hascii.
    apply orb_true_iff in Hascii as [Hu | Hl].
    + destruct (caesar_char_upper k c Hu) as [Heq Hu'].
      destruct (caesar_char_upper (- k) _ Hu') as [Heq' _].
      rewrite Heq', Heq. apply ascii_upper_range in Hu.
      replace (65 + (c - 65 + k) mod 26 - 65) with ((c - 65 + k) mod 26) by lia.
      rewrite rotate_back; lia.
    + destruct (caesar_char_lower k c Hl) as [Heq Hl'].
      destruct (caesar_char_lower (- k) _ Hl') as [Heq' _].
      rewrite Heq', Heq. apply ascii_lower_range in Hl.
      replace (97 + (c - 97 + k) mod 26 - 97) with ((c - 97 + k) mod 26) by lia.
      rewrite rotate_back; lia.
  - rewrite (caesar_char_not_alpha k c Ha). now apply caesar_char_not_alpha.
Qed.

(** The round trip on text whose letters are all ASCII. *)
Lemma caesar_cipher_inverse_ascii (k : Z) (s : pystr) :
  Forall (fun c => char_isalpha U c = true -> ascii_letter c = true) s ->
  Cipher.caesar_cipher U (- k) (Cipher.caesar_cipher U k s) = s.
Proof.
  unfold Cipher.caesar_cipher. induction 1 as [|c s Hc _ IH]; simpl.
  - reflexivity.
  - now rewrite caesar_char_inverse, IH.
Qed.

(** A letter outside ASCII never survives the round trip: both passes
    leave an ASCII letter. *)
Lemma caesar_char_inverse_fails (k c : Z) :
  char_isalpha U c = true ->
  ascii_letter c = false ->
  Cipher.caesar_char U (- k) (Cipher.caesar_char U k c) <> c.
Proof.
  intros Ha Hna Heq.
  pose proof (caesar_char_alpha_ascii k c Ha) as H1.
  pose proof (caesar_char_alpha_ascii (- k) _ (ascii_letter_isalpha _ H1)) as H2.
  congruence.
Qed.

Lemma caesar_cipher_app (k : Z) (s t : pystr) :
  Cipher.caesar_cipher U k (s ++ t)
  = Cipher.caesar_cipher U k s ++ Cipher.caesar_cipher U k t.
Proof. apply map_app. Qed.

Lemma caesar_items_chars (k : Z) (s : pystr) :
  Cipher.caesar_items U k (map (fun c => PStr [c]) s) = Ok (Cipher.caesar_cipher U k s).
Proof.
  induction s as [|c s IH]; simpl; [reflexivity|].
  rewrite IH, andb_true_r.
  destruct (char_isalpha U c) eqn:Ha; simpl; [reflexivity|].
  now rewrite (caesar_char_not_alpha k c Ha).
Qed.

(** On a [str] the method is [caesar_cipher] and cannot raise. *)
Lemma caesar_cipher_dyn_str (k : Z) (s : pystr) :
  Cipher.caesar_cipher_dyn U k (PStr s) = Ok (Cipher.caesar_cipher U k s).
Proof. apply caesar_items_chars. Qed.

End CipherFacts.

(** C1.  The round trip fails on the code: on the producer's sample message
    "Este mensaje será cifrado" with shift 3 the accented letter is
    enciphered to "b", and shifting back by -3 gives "y", so the text that comes
    back ends its third word in "sery" and is not the text that went in. *)
Theorem caesar_round_trip_loses_accented_letter :
  Cipher.caesar_cipher ucd_latin_cyrillic 3 sample_message
    = str "Hvwh phqvdmh vhub fliudgr"
  /\ Cipher.caesar_cipher ucd_latin_cyrillic (-3)
       (Cipher.caesar_cipher ucd_latin_cyrillic 3 sample_message)
     = str "Este mensaje sery cifrado"
  /\ Cipher.caesar_cipher ucd_latin_cyrillic (-3)
       (Cipher.caesar_cipher ucd_latin_cyrillic 3 sample_message)
     <> sample_message.
Proof.
  split; [reflexivity|]. split; [reflexivity|].
  vm_compute. discriminate.
Qed.

(** C7.  A character outside A-Z and a-z does not always pass through: the
    letters U+00F1 and U+0416 are no ASCII letters, and with shift 3 the code
    turns them into "r" and "W". *)
Theorem caesar_rewrites_letters_outside_ascii :
  ascii_letter n_tilde = false
  /\ Cipher.caesar_cipher ucd_latin_cyrillic 3 [n_tilde] = str "r"
  /\ ascii_letter cyrillic_zhe = false
  /\ Cipher.caesar_cipher ucd_latin_cyrillic 3 [cyrillic_zhe] = str "W".
Proof. repeat split. Qed.

(** C9.  A character that [isalpha] accepts and that is outside A-Z and a-z
    is still shifted from the ASCII base ['A'] or ['a'] chosen by [isupper]:
    at its position the output holds [base + (ord(c) - base + shift) % 26],
    which is an ASCII letter and differs from the character that went in. *)
Theorem caesar_non_ascii_letter_becomes_ascii
    (U : ucd) (k c : Z) (before after : pystr) :
  char_isalpha U c = true ->
  ascii_letter c = false ->
  let base := if char_isupper U c then ord_A else ord_a in
  let c' := base + (c - base + k) mod 26 in
  Cipher.caesar_cipher U k (before ++ c :: after)
    = Cipher.caesar_cipher U k before ++ c' :: Cipher.caesar_cipher U k after
  /\ ascii_letter c' = true
  /\ c' <> c.
Proof.
  intros Ha Hna base c'.
  assert (Hc : Cipher.caesar_char U k c = c').
  { unfold Cipher.caesar_char. now rewrite Ha. }
  split; [|split].
  - rewrite caesar_cipher_app. simpl. now rewrite Hc.
  - rewrite <- Hc. now apply caesar_char_alpha_ascii.
  - intros Heq. pose proof (caesar_char_alpha_ascii U k c Ha) as Hl.
    rewrite Hc, Heq in Hl. congruence.
Qed.

Lemma caesar_non_ascii_letter_becomes_ascii_witness :
  Cipher.caesar_cipher ucd_latin_cyrillic 3 (str "a" ++ n_tilde :: str "o")
    = Cipher.caesar_cipher ucd_latin_cyrillic 3 (str "a")
      ++ 114 :: Cipher.caesar_cipher ucd_latin_cyrillic 3 (str "o")
  /\ ascii_letter 114 = true
  /\ 114 <> n_tilde.
Proof.
  apply (caesar_non_ascii_letter_becomes_ascii ucd_latin_cyrillic 3 n_tilde
           (str "a") (str "o")); reflexivity.
Defined.

(** ** The worker *)

Section WorkerFacts.
Context {S : Type} `{SQSClient S}.
Variable U : ucd.
Variable json_loads : pystr -> result pyval.

Import Worker.

Ltac run :=
  unfold consume_message, sqs_receive_message, sqs_delete_message,
    read_receipt_handle, bind_receipt_handle, incr_processed_count, loads,
    get_queue_stats, _shutdown, log, in_env, call, clock,
    try_except, try_finally, bind, ret, raise, gets, modify, lift_result,
    count, calls in *;
  simpl in *.

(** A received message on whose body [json.loads] raises
    [JSONDecodeError] is never handed to [process_message]: the call returns
    [None], the only calls made are the receive and one delete with that
    message's receipt handle, and the worker object, with its
    [processed_count], is left as it was. *)
Lemma consume_message_deletes_malformed
    (st : wstate S) (m : message) (rest : list message) (s1 : S) :
  receive_message (queue_url (self st)) 1 20 (sqs (env st)) = (Ok (m :: rest), s1) ->
  json_loads (Body m) = Raise JSONDecodeError ->
  let url := queue_url (self st) in
  let st' := snd (consume_message U json_loads st) in
  fst (consume_message U json_loads st) = Ok None
  /\ self st' = self st
  /\ count st' = count st
  /\ calls st' = calls st ++ [ReceiveMessage url 1 20; DeleteMessage url (ReceiptHandle m)]
  /\ sqs (env st') = snd (delete_message url (ReceiptHandle m) s1).
Proof.
  intros Hrecv Hbad url st'. subst url st'. run.
  rewrite Hrecv. simpl. rewrite Hbad. simpl.
  destruct (delete_message (queue_url (self st)) (ReceiptHandle m) s1) as [[[]|e] s2];
    simpl; rewrite <- app_assoc; simpl; repeat split; reflexivity.
Qed.

Lemma truthy_not_empty (d : dict) : d <> [] -> truthy (Some d) = true.
Proof. destruct d; [congruence | reflexivity]. Qed.

(** [process_message] on a dict whose message the cipher accepts: it returns
    a payload, reads the clock once, and touches nothing else. *)
Lemma process_message_dict (st : wstate S) (d : dict) (enc : pystr) :
  Cipher.caesar_cipher_dyn U (shift (self st))
    (dict_get_default (str "message") (PStr []) d) = Ok enc ->
  exists processed,
    process_message U (PDict d) st
    = (Ok processed,
       {| self := self st;
          env := {| sqs := snd (now_isoformat (sqs (env st)));
                    history := history (env st) ++ [ProcessMessage (PDict d)] |};
          receipt_handle := receipt_handle st |})
    /\ processed <> []
    /\ dict_get (str "original_message") processed
       = Some (dict_get_default (str "message") (PStr []) d)
    /\ dict_get (str "encrypted_message") processed = Some (PStr enc)
    /\ dict_get (str "processed_at") processed
       = Some (PStr (fst (now_isoformat (sqs (env st)))))
    /\ (forall k, ~ In k changed_keys -> dict_get k processed = dict_get k d).
Proof.
  intros Henc. unfold process_message. run. rewrite Henc. simpl.
  destruct (now_isoformat (sqs (env st))) as [now s2]. simpl.
  eexists. split; [reflexivity|].
  split; [apply dict_set_not_empty|].
  split; [|split; [|split]].
  - rewrite !dict_get_set_other by (vm_compute; discriminate).
    apply dict_get_set_same.
  - rewrite !dict_get_set_other by (vm_compute; discriminate).
    apply dict_get_set_same.
  - rewrite !dict_get_set_other by (vm_compute; discriminate).
    apply dict_get_set_same.
  - intros k Hk.
    rewrite !dict_get_set_other; [reflexivity | ..];
      intros ->; apply Hk; unfold changed_keys; simpl; tauto.
Qed.

(** A parsed and transformed message whose delete succeeds. *)
Lemma consume_message_acknowledged
    (st : wstate S) (m : message) (rest : list message) (s1 s3 : S)
    (d : dict) (enc : pystr) :
  receive_message (queue_url (self st)) 1 20 (sqs (env st)) = (Ok (m :: rest), s1) ->
  json_loads (Body m) = Ok (PDict d) ->
  Cipher.caesar_cipher_dyn U (shift (self st))
    (dict_get_default (str "message") (PStr []) d) = Ok enc ->
  delete_message (queue_url (self st)) (ReceiptHandle m) (snd (now_isoformat s1))
    = (Ok tt, s3) ->
  exists processed st',
    consume_message U json_loads st = (Ok (Some processed), st')
    /\ count st' = count st + 1
    /\ calls st' = calls st ++ [ReceiveMessage (queue_url (self st)) 1 20;
                                 ProcessMessage (PDict d);
                                 DeleteMessage (queue_url (self st)) (ReceiptHandle m)]
    /\ truthy (Some processed) = true
    /\ dict_get (str "original_message") processed
       = Some (dict_get_default (str "message") (PStr []) d)
    /\ dict_get (str "encrypted_message") processed = Some (PStr enc)
    /\ dict_get (str "processed_at") processed = Some (PStr (fst (now_isoformat s1))).
Proof.
  intros Hrecv Hjson Henc Hdel.
  destruct (process_message_dict (leased st m s1) d enc Henc)
    as (processed & Hp & Hne & Ho & He & Ht & _).
  unfold leased in Hp, Ht. run.
  rewrite Hrecv. simpl. rewrite Hjson. simpl. rewrite Hp. simpl.
  rewrite Hdel. simpl.
  eexists. eexists. split; [reflexivity|]. simpl.
  repeat split; auto.
  - now rewrite <- !app_assoc.
  - now apply truthy_not_empty.
Qed.

(** A parsed and transformed message whose delete raises [ClientError]. *)
Lemma consume_message_delete_failed
    (st : wstate S) (m : message) (rest : list message) (s1 s3 : S)
    (d : dict) (enc code : pystr) :
  receive_message (queue_url (self st)) 1 20 (sqs (env st)) = (Ok (m :: rest), s1) ->
  json_loads (Body m) = Ok (PDict d) ->
  Cipher.caesar_cipher_dyn U (shift (self st))
    (dict_get_default (str "message") (PStr []) d) = Ok enc ->
  delete_message (queue_url (self st)) (ReceiptHandle m) (snd (now_isoformat s1))
    = (Raise (ClientError code), s3) ->
  exists st',
    consume_message U json_loads st = (Ok None, st')
    /\ self st' = self st
    /\ calls st' = calls st ++ [ReceiveMessage (queue_url (self st)) 1 20;
                                 ProcessMessage (PDict d);
                                 DeleteMessage (queue_url (self st)) (ReceiptHandle m)].
Proof.
  intros Hrecv Hjson Henc Hdel.
  destruct (process_message_dict (leased st m s1) d enc Henc)
    as (processed & Hp & _).
  unfold leased in Hp. run.
  rewrite Hrecv. simpl. rewrite Hjson. simpl. rewrite Hp. simpl.
  rewrite Hdel. simpl.
  eexists. split; [reflexivity|]. simpl.
  split; [reflexivity|]. now rewrite <- !app_assoc.
Qed.

(** A cycle whose message was parsed and transformed.  When the delete
    succeeds, [processed_count] grows by exactly 1, and the pass goes on in
    either mode if the three printed fields can be written, and raises
    [UnicodeEncodeError] if the original text cannot.  When the delete raises
    [ClientError], [consume_message] returns [None] with [processed_count]
    unchanged, and the pass goes on in continuous mode and leaves the loop in
    single-run mode. *)
Lemma acknowledge_cycle
    (st : wstate S) (m : message) (rest : list message) (s1 : S)
    (d : dict) (enc : pystr) :
  receive_message (queue_url (self st)) 1 20 (sqs (env st)) = (Ok (m :: rest), s1) ->
  json_loads (Body m) = Ok (PDict d) ->
  Cipher.caesar_cipher_dyn U (shift (self st))
    (dict_get_default (str "message") (PStr []) d) = Ok enc ->
  let original := dict_get_default (str "message") (PStr []) d in
  let deleted :=
    fst (delete_message (queue_url (self st)) (ReceiptHandle m)
           (snd (now_isoformat s1))) in
  let st' := snd (consume_message U json_loads st) in
  (deleted = Ok tt ->
     count st' = count st + 1
     /\ forall continuous max_messages,
          limit_reached max_messages (count st) = false ->
          (printable original = true ->
           encodable enc = true ->
           encodable (fst (now_isoformat s1)) = true ->
           fst (loop_body U json_loads continuous max_messages st) = Ok Continue)
          /\ (printable original = false ->
              fst (loop_body U json_loads continuous max_messages st)
              = Raise UnicodeEncodeError))
  /\ (forall code, deleted = Raise (ClientError code) ->
        fst (consume_message U json_loads st) = Ok None
        /\ count st' = count st
        /\ forall max_messages,
             limit_reached max_messages (count st) = false ->
             fst (loop_body U json_loads true max_messages st) = Ok Continue
             /\ fst (loop_body U json_loads false max_messages st) = Ok Break).
Proof.
  intros Hrecv Hjson Henc original deleted st'. subst original deleted st'.
  destruct (delete_message (queue_url (self st)) (ReceiptHandle m)
              (snd (now_isoformat s1))) as [r s3] eqn:Hdel.
  cbn [fst]. split.
  - intros ->.
    destruct (consume_message_acknowledged st m rest s1 s3 d enc Hrecv Hjson Henc Hdel)
      as (processed & st' & Hc & Hcount & _ & Htruthy & Ho & He & Ht).
    rewrite Hc. cbn [fst snd]. split; [exact Hcount|].
    intros continuous max_messages Hlimit.
    unfold loop_body, bind, gets, dict_getitem, lift_result, print_formatted.
    fold (count st). rewrite Hlimit, Hc, Htruthy, Ho.
    split.
    + intros Hp1 Hp2 Hp3. unfold ret at 1. rewrite Hp1, He. unfold ret at 1.
      simpl printable. rewrite Hp2, Ht. unfold ret at 1.
      simpl printable. rewrite Hp3. reflexivity.
    + intros Hp1. unfold ret at 1. rewrite Hp1. reflexivity.
  - intros code ->.
    destruct (consume_message_delete_failed st m rest s1 s3 d enc code
                Hrecv Hjson Henc Hdel) as (st' & Hc & Hself & _).
    rewrite Hc. simpl. split; [reflexivity|].
    split; [unfold count; now rewrite Hself|].
    intros max_messages Hlimit.
    unfold loop_body, bind, gets. fold (count st).
    rewrite Hlimit, Hc. simpl. split; reflexivity.
Qed.

(** Once [processed_count] has reached a non-zero limit the pass leaves the
    loop at once, without touching the environment. *)
Lemma loop_body_limit_reached
    (st : wstate S) (continuous : bool) (max_messages : Z) :
  max_messages <> 0 ->
  max_messages <= count st ->
  loop_body U json_loads continuous (Some max_messages) st = (Ok Break, st).
Proof.
  intros Hnz Hle. unfold loop_body, bind, gets. fold (count st). simpl.
  apply Z.eqb_neq in Hnz. rewrite Hnz.
  assert (Hge : (count st >=? max_messages) = true).
  { rewrite Z.geb_leb. now apply Z.leb_le. }
  now rewrite Hge.
Qed.

(** [process_message] never touches the worker object. *)
Lemma process_message_self (payload : pyval) (st : wstate S) :
  self (snd (process_message U payload st)) = self st.
Proof.
  unfold process_message. run.
  destruct payload; simpl; try reflexivity.
  destruct (Cipher.caesar_cipher_dyn U (shift (self st))
              (dict_get_default (str "message") (PStr []) d)); simpl; [|reflexivity].
  destruct (now_isoformat (sqs (env st))); reflexivity.
Qed.

(** One call of [consume_message] adds at most one to [processed_count]. *)
Lemma consume_message_count (st : wstate S) :
  count (snd (consume_message U json_loads st)) = count st
  \/ count (snd (consume_message U json_loads st)) = count st + 1.
Proof.
  run.
  repeat (match goal with
          | |- context [process_message U ?p ?st0] =>
              pose proof (process_message_self p st0);
              destruct (process_message U p st0) as [[?|?] ?]
          | |- context [match ?x with _ => _ end] =>
              lazymatch x with
              | context [match _ with _ => _ end] => fail
              | _ => destruct x
              end
          end; simpl in *);
    first [left; congruence | right; congruence].
Qed.

Ltac loop_cases :=
  unfold loop_body, dict_getitem, bind, gets, ret, raise; simpl;
  repeat (match goal with
          | |- context [match ?x with _ => _ end] =>
              lazymatch x with
              | context [match _ with _ => _ end] => fail
              | _ => destruct x eqn:?
              end
          end; simpl in *).

(** One pass of the loop adds at most one to [processed_count]. *)
Lemma loop_body_count (continuous : bool) (max_messages : option Z) (st : wstate S) :
  count (snd (loop_body U json_loads continuous max_messages st)) = count st
  \/ count (snd (loop_body U json_loads continuous max_messages st)) = count st + 1.
Proof.
  pose proof (consume_message_count st) as Hc. revert Hc.
  loop_cases; intros; auto.
Qed.

(** In continuous mode only the limit test leaves the loop. *)
Lemma loop_body_continuous_break (max_messages : option Z) (st : wstate S) :
  fst (loop_body U json_loads true max_messages st) = Ok Break ->
  limit_reached max_messages (count st) = true.
Proof.
  unfold count. loop_cases; intros; congruence.
Qed.

(** X21.  A continuous run with a non-zero limit [M], started at or below
    it, can only end with [processed_count = M]. *)
Lemma while_true_stops_at_limit (max_messages : Z) (fuel : nat) :
  max_messages <> 0 ->
  forall st st' : wstate S,
    count st <= max_messages ->
    while_true U json_loads fuel true (Some max_messages) st = (Ok true, st') ->
    count st' = max_messages.
Proof.
  intros Hnz. induction fuel as [|fuel IH]; intros st st' Hle Hrun.
  - discriminate.
  - cbn [while_true] in Hrun. unfold bind in Hrun.
    pose proof (loop_body_count true (Some max_messages) st) as Hstep.
    pose proof (loop_body_continuous_break (Some max_messages) st) as Hbreak.
    destruct (loop_body U json_loads true (Some max_messages) st) as [[[]|e] st1] eqn:Hbody;
      simpl in *; try discriminate.
    + apply (IH st1 st'); [|exact Hrun].
      assert (Hlim : limit_reached (Some max_messages) (count st) = false
                     \/ count st = max_messages).
      { simpl. apply Z.eqb_neq in Hnz. rewrite Hnz.
        destruct (count st >=? max_messages) eqn:Hge; [right | now left].
        rewrite Z.geb_leb in Hge. apply Z.leb_le in Hge. lia. }
      destruct Hlim as [Hlim | Heq].
      * simpl in Hlim. apply Z.eqb_neq in Hnz. rewrite Hnz in Hlim.
        rewrite Z.geb_leb in Hlim. apply Z.leb_gt in Hlim. lia.
      * rewrite loop_body_limit_reached in Hbody by lia. discriminate.
    + injection Hrun as <-. specialize (Hbreak eq_refl).
      simpl in Hbreak. apply Z.eqb_neq in Hnz. rewrite Hnz in Hbreak.
      rewrite Z.geb_leb in Hbreak. apply Z.leb_le in Hbreak.
      rewrite loop_body_limit_reached in Hbody by lia.
      injection Hbody as <-. lia.
Qed.

(** [get_queue_stats] reads the attributes once and changes nothing else. *)
Lemma get_queue_stats_effect (st : wstate S) :
  self (snd (get_queue_stats st)) = self st
  /\ calls (snd (get_queue_stats st))
     = calls st ++ [GetQueueAttributes (queue_url (self st))].
Proof.
  run.
  destruct (get_queue_attributes (queue_url (self st)) (sqs (env st))) as [[a|e] s'];
    simpl; [|destruct e]; simpl; auto.
Qed.

Lemma shutdown_effect (st : wstate S) :
  self (snd (_shutdown st)) = self st
  /\ calls (snd (_shutdown st))
     = calls st ++ [GetQueueAttributes (queue_url (self st))].
Proof.
  pose proof (get_queue_stats_effect st) as Hs.
  unfold _shutdown, bind, ret. destruct (get_queue_stats st) as [[a|e] st1]; exact Hs.
Qed.

Lemma try_finally_state {A} (m : M (wstate S) A) (f : M (wstate S) unit) (st : wstate S) :
  snd (try_finally m f st) = snd (f (snd (m st))).
Proof.
  unfold try_finally. destruct (m st) as [r st1]. simpl.
  destruct (f st1) as [[u|e] st2]; reflexivity.
Qed.

(** A start at the limit is the two statistics reads and nothing more. *)
Lemma start_at_limit
    (st : wstate S) (fuel : nat) (continuous : bool) (max_messages : Z) :
  max_messages <> 0 ->
  max_messages <= count st ->
  start U json_loads (Datatypes.S fuel) continuous (Some max_messages) st
  = match get_queue_stats st with
    | (Ok _, st1) => try_finally (ret true) _shutdown st1
    | (Raise e, st1) => (Raise e, st1)
    end.
Proof.
  intros Hnz Hle. unfold start. unfold bind at 1.
  pose proof (get_queue_stats_effect st) as [Hself _].
  destruct (get_queue_stats st) as [[a|e] st1]; [|reflexivity].
  simpl in Hself.
  unfold try_except at 1. cbn [while_true]. unfold bind at 1.
  rewrite loop_body_limit_reached by (unfold count in *; rewrite ?Hself; auto).
  reflexivity.
Qed.

(** C10.  [process_message] returns a payload for every dict whose message
    is a [str] or is absent, and in every payload it returns, each key other
    than the five it assigns has the value it had in the input; the
    producer's [message] and [timestamp] are among those. *)
Theorem process_message_keeps_other_keys (st : wstate S) (d : dict) :
  (forall text,
     dict_get_default (str "message") (PStr []) d = PStr text ->
     exists processed, fst (process_message U (PDict d) st) = Ok processed)
  /\ (forall processed,
        fst (process_message U (PDict d) st) = Ok processed ->
        (forall k, ~ In k changed_keys -> dict_get k processed = dict_get k d)
        /\ dict_get (str "message") processed = dict_get (str "message") d
        /\ dict_get (str "timestamp") processed = dict_get (str "timestamp") d).
Proof.
  split.
  - intros text Htext.
    destruct (process_message_dict st d (Cipher.caesar_cipher U (shift (self st)) text))
      as (processed & Hp & _).
    + rewrite Htext. apply caesar_cipher_dyn_str.
    + exists processed. now rewrite Hp.
  - intros processed Hp.
    destruct (Cipher.caesar_cipher_dyn U (shift (self st))
                (dict_get_default (str "message") (PStr []) d)) as [enc|e] eqn:Henc.
    + destruct (process_message_dict st d enc Henc) as (processed' & Hp' & _ & _ & _ & _ & Hframe).
      rewrite Hp' in Hp. simpl in Hp. injection Hp as <-.
      split; [exact Hframe|].
      split; apply Hframe; vm_compute; intuition discriminate.
    + exfalso. revert Hp. unfold process_message. run. rewrite Henc. discriminate.
Qed.

End WorkerFacts.

(** *** The worker on the scripted client *)

Lemma consume_message_deletes_malformed_witness :
  let st := wstate0 [msg_poison] (Ok tt) in
  let st' := snd (Worker.consume_message ucd_latin_cyrillic loads_table st) in
  fst (Worker.consume_message ucd_latin_cyrillic loads_table st) = Ok None
  /\ Worker.count st' = 0
  /\ Worker.calls st'
     = [ReceiveMessage the_url 1 20; DeleteMessage the_url (str "rh-2")].
Proof.
  pose proof (consume_message_deletes_malformed ucd_latin_cyrillic loads_table
                (wstate0 [msg_poison] (Ok tt)) msg_poison [] (script0 [] (Ok tt))
                eq_refl eq_refl) as (Hr & _ & Hcount & Hcalls & _).
  split; [exact Hr|]. split; [exact Hcount | exact Hcalls].
Defined.

Lemma acknowledge_cycle_witness :
  let st := wstate0 [msg_hola] (Ok tt) in
  Worker.count (snd (Worker.consume_message ucd_latin_cyrillic loads_table st)) = 0 + 1
  /\ fst (Worker.loop_body ucd_latin_cyrillic loads_table false None st) = Ok Worker.Continue.
Proof.
  pose proof (acknowledge_cycle ucd_latin_cyrillic loads_table
                (wstate0 [msg_hola] (Ok tt)) msg_hola [] (script0 [] (Ok tt))
                [(str "message", PStr (str "Hola"))] (str "Krod")
                eq_refl eq_refl eq_refl) as [Hok _].
  destruct (Hok eq_refl) as [Hcount Hloop].
  split; [exact Hcount | exact (proj1 (Hloop false None eq_refl) eq_refl eq_refl eq_refl)].
Defined.

(** C3.  The code breaks the claim in single-run mode: on a queue holding
    one well-formed message, a delete that raises [ClientError] makes
    [consume_message] return [None], which [start] takes for an empty queue,
    so the loop is left after that one pass instead of going on; the counter
    stays at 0. *)
Theorem single_run_ends_on_delete_failure :
  let st := wstate0 [msg_hola] (Raise (ClientError (str "InternalError"))) in
  let run := Worker.start ucd_latin_cyrillic loads_table 3 false None st in
  fst (Worker.loop_body ucd_latin_cyrillic loads_table false None st) = Ok Worker.Break
  /\ fst run = Ok true
  /\ Worker.count (snd run) = 0
  /\ Worker.calls (snd run)
     = [ GetQueueAttributes the_url;
         ReceiveMessage the_url 1 20;
         ProcessMessage (PDict [(str "message", PStr (str "Hola"))]);
         DeleteMessage the_url (str "rh-1");
         GetQueueAttributes the_url ].
Proof. repeat split. Qed.

(** C2.  The code breaks the claim on a body that fails to deserialise
    with another exception than [JSONDecodeError]: on a thousand opening
    brackets [json.loads] raises [RecursionError], which no handler of
    [consume_message] catches, so the exception leaves it after the receive
    alone, with no delete call, and ends the run in continuous mode too. *)
Theorem consume_message_leaves_undecodable_body :
  let st := wstate0 [msg_deep] (Ok tt) in
  let r := Worker.consume_message ucd_latin_cyrillic loads_table st in
  let run := Worker.start ucd_latin_cyrillic loads_table 3 true None st in
  loads_table (Body msg_deep) = Raise RecursionError
  /\ fst r = Raise RecursionError
  /\ Worker.calls (snd r) = [ReceiveMessage the_url 1 20]
  /\ Worker.count (snd r) = 0
  /\ fst run = Raise RecursionError
  /\ Worker.calls (snd run)
     = [ GetQueueAttributes the_url; ReceiveMessage the_url 1 20;
         GetQueueAttributes the_url ].
Proof. vm_compute. repeat split. Qed.

(** C4.  With [max_messages = 0] the limit test is never true, so the worker
    does not stop after 0 acknowledgments: started in single-run mode on a
    queue holding one message, it receives and acknowledges that message,
    receives once more, and only the empty queue ends the run. *)
Theorem zero_limit_does_not_stop_the_worker :
  let st := wstate0 [msg_hola] (Ok tt) in
  let run := Worker.start ucd_latin_cyrillic loads_table 3 false (Some 0) st in
  Worker.limit_reached (Some 0) (Worker.count st) = false
  /\ fst run = Ok true
  /\ Worker.count (snd run) = 1
  /\ Worker.calls (snd run)
     = [ GetQueueAttributes the_url;
         ReceiveMessage the_url 1 20;
         ProcessMessage (PDict [(str "message", PStr (str "Hola"))]);
         DeleteMessage the_url (str "rh-1");
         ReceiveMessage the_url 1 20;
         GetQueueAttributes the_url ].
Proof. repeat split. Qed.

(** ** The producer *)

Section ProducerFacts.
Context {S : Type} `{SQSClient S}.
Variable json_dumps : pyval -> pystr.

Import Producer.

Ltac run :=
  unfold _get_or_create_queue, send_batch, in_env, call, clock,
    try_except, bind, ret, raise, gets, lift_result, calls in *;
  simpl in *.

Ltac settle :=
  repeat (split || intro); simpl in *;
  try reflexivity; try discriminate; try congruence.

Lemma batch_sizes_app (evs evs' : list event) :
  batch_sizes (evs ++ evs') = batch_sizes evs ++ batch_sizes evs'.
Proof.
  induction evs as [|ev evs IH]; simpl; [reflexivity|].
  destruct ev; simpl; now rewrite ?IH.
Qed.

(** Building the entries cannot raise and makes no client call: it reads
    the clock once per message and numbers the entries from [idx]. *)
Lemma build_entries_effect (messages : list pyval) :
  forall (idx : nat) (st : pstate S),
  exists entries st1,
    build_entries json_dumps idx messages st = (Ok entries, st1)
    /\ List.length entries = List.length messages
    /\ map Id entries = map str_of_nat (seq idx (List.length messages))
    /\ self st1 = self st
    /\ calls st1 = calls st.
Proof.
  induction messages as [|msg rest IH]; intros idx st; simpl.
  - exists [], st. repeat split.
  - unfold bind at 1, in_env, clock.
    destruct (now_isoformat (sqs (env st))) as [now s'] eqn:Hnow. simpl.
    unfold bind at 1.
    match goal with |- context [build_entries _ _ _ ?st0] =>
      destruct (IH (Datatypes.S idx) st0) as (entries & st1 & Hb & Hlen & Hids & Hself & Hcalls)
    end.
    rewrite Hb. unfold ret.
    eexists. eexists. split; [reflexivity|]. simpl.
    rewrite Hlen, Hids. repeat split; assumption.
Qed.

(** C5.  [send_batch] makes exactly one [send_message_batch] call, and that
    call carries one entry per input message, numbered 0 to N-1: no cap is
    applied and nothing is split. *)
Theorem send_batch_is_one_call (messages : list pyval) (st : pstate S) :
  exists entries,
    calls (snd (send_batch json_dumps messages st))
      = calls st ++ [SendMessageBatch (queue_url (self st)) entries]
    /\ List.length entries = List.length messages
    /\ map Id entries = map str_of_nat (seq 0 (List.length messages))
    /\ batch_sizes (calls (snd (send_batch json_dumps messages st)))
       = batch_sizes (calls st) ++ [List.length messages].
Proof.
  destruct (build_entries_effect messages 0%nat st)
    as (entries & st1 & Hb & Hlen & Hids & Hself & Hcalls).
  exists entries.
  assert (Hc : calls (snd (send_batch json_dumps messages st))
               = calls st ++ [SendMessageBatch (queue_url (self st)) entries]).
  { run. rewrite Hb. simpl. rewrite Hself, Hcalls.
    destruct (send_message_batch (queue_url (self st)) entries (sqs (env st1)))
      as [[resp|e] s2]; simpl; [reflexivity|].
    destruct e; reflexivity. }
  repeat split; try assumption.
  rewrite Hc, batch_sizes_app. simpl. now rewrite Hlen.
Qed.

(** C6.  The result of [send_batch] is the service's reply to the one batch
    call: the response itself when the call returns, the empty dict when it
    raises [ClientError], and the exception when it raises anything else. *)
Theorem send_batch_returns_service_reply (messages : list pyval) (st : pstate S) :
  exists entries st1,
    build_entries json_dumps 0 messages st = (Ok entries, st1)
    /\ List.length entries = List.length messages
    /\ let reply := fst (send_message_batch (queue_url (self st)) entries (sqs (env st1))) in
       (forall response,
          reply = Ok response ->
          fst (send_batch json_dumps messages st) = Ok response)
       /\ (forall code,
             reply = Raise (ClientError code) ->
             fst (send_batch json_dumps messages st) = Ok empty_dict)
       /\ (forall e,
             reply = Raise e -> is_ClientError e = false ->
             fst (send_batch json_dumps messages st) = Raise e).
Proof.
  destruct (build_entries_effect messages 0%nat st)
    as (entries & st1 & Hb & Hlen & _ & Hself & _).
  exists entries, st1. split; [exact Hb|]. split; [exact Hlen|].
  run. rewrite Hb. simpl. rewrite Hself.
  destruct (send_message_batch (queue_url (self st)) entries (sqs (env st1)))
    as [[resp|e] s2]; simpl.
  - repeat split; intros; congruence.
  - repeat split.
    + intros; congruence.
    + intros code [= ->]. reflexivity.
    + intros e' [= <-] Hnc. destruct e; simpl in *; congruence.
Qed.

(** C8.  [_get_or_create_queue] issues a create call exactly when the lookup
    raised [ClientError] with the code of a queue that does not exist; a
    lookup that returns gives its URL, and a lookup that fails in any other
    way raises that same error after the lookup alone. *)
Theorem get_or_create_queue_creates_only_when_not_found (st : pstate S) :
  let name := queue_name (self st) in
  let lookup := fst (get_queue_url name (sqs (env st))) in
  let after_lookup := snd (get_queue_url name (sqs (env st))) in
  let r := _get_or_create_queue st in
  exists evs,
    calls (snd r) = calls st ++ GetQueueUrl name :: evs
    /\ (existsb is_CreateQueue evs = true
        <-> lookup = Raise (ClientError NonExistentQueue))
    /\ (lookup = Raise (ClientError NonExistentQueue) ->
        evs = [CreateQueue name queue_attributes]
        /\ fst r = fst (create_queue name queue_attributes after_lookup))
    /\ (forall url, lookup = Ok url -> fst r = Ok url)
    /\ (forall e,
          lookup = Raise e -> e <> ClientError NonExistentQueue ->
          evs = [] /\ fst r = Raise e).
Proof.
  intros name lookup after_lookup r. subst name lookup after_lookup r. run.
  destruct (get_queue_url (queue_name (self st)) (sqs (env st))) as [[url|e] s1]; simpl.
  - exists []. split; [reflexivity|]. settle.
  - destruct e as [code| | | | | | |name];
      try (exists []; split; [reflexivity|]; settle).
    destruct (pystr_eqb code NonExistentQueue) eqn:Hcode.
    + apply pystr_eqb_eq in Hcode. subst code. simpl.
      destruct (create_queue (queue_name (self st)) queue_attributes s1) as [rc s2]; simpl.
      exists [CreateQueue (queue_name (self st)) queue_attributes].
      split; [rewrite <- app_assoc; reflexivity|]. settle.
    + assert (Hne : code <> NonExistentQueue).
      { intros ->. rewrite pystr_eqb_refl in Hcode. discriminate. }
      simpl. exists []. split; [reflexivity|]. settle.
Qed.

End ProducerFacts.

(** *** The producer on the scripted client *)

(** C5, as stated, fails: eleven messages go out in a single call of eleven
    entries. *)
Lemma send_batch_eleven_in_one_call :
  Producer.batch_sizes
    (Producer.calls
       (snd (Producer.send_batch dumps_envelope (batch_of 11)
               (pstate0 (script0 [] (Ok tt))))))
  = [11%nat].
Proof. reflexivity. Qed.

(** C6, as stated, fails: when the batch call raises [ClientError] the result
    for three messages is the empty dict, which lists no entry at all; and
    when it raises another exception, so does [send_batch]. *)
Lemma send_batch_empty_on_client_error :
  let unavailable := ClientError (str "ServiceUnavailable") in
  let unreachable := OtherException (str "EndpointConnectionError") in
  let r := fst (Producer.send_batch dumps_envelope (batch_of 3)
                  (pstate0 (script_batch_raises unavailable))) in
  r = Ok empty_dict
  /\ (Producer.len_or_empty (Successful empty_dict)
      + Producer.len_or_empty (Failed empty_dict) <> List.length (batch_of 3))%nat
  /\ fst (Producer.send_batch dumps_envelope (batch_of 3)
            (pstate0 (script_batch_raises unreachable)))
     = Raise unreachable.
Proof. repeat split. simpl. discriminate. Qed.

(** A lookup refused for lack of permission: the error comes back and the
    only call made is the lookup. *)
Example get_or_create_queue_access_denied :
  let denied := ClientError (str "AccessDenied") in
  let r := Producer._get_or_create_queue (pstate0 (script_lookup (Raise denied))) in
  fst r = Raise denied
  /\ Producer.calls (snd r) = [GetQueueUrl (str "message-queue")].
Proof. repeat split. Qed.

(** A lookup that finds no queue: the queue is created with the three
    fixed attributes. *)
Example get_or_create_queue_not_found :
  let missing := ClientError Producer.NonExistentQueue in
  let r := Producer._get_or_create_queue (pstate0 (script_lookup (Raise missing))) in
  fst r = Ok the_url
  /\ Producer.calls (snd r)
     = [ GetQueueUrl (str "message-queue");
         CreateQueue (str "message-queue") Producer.queue_attributes ].
Proof. repeat split. Qed.

(** *** The scenarios of the specification *)

Example caesar_hola :
  Cipher.caesar_cipher ucd_latin_cyrillic 3 (str "Hola") = str "Krod".
Proof. reflexivity. Qed.

Example caesar_abc_xyz :
  Cipher.caesar_cipher ucd_latin_cyrillic 3 (str "abc XYZ") = str "def ABC".
Proof. reflexivity. Qed.

Example caesar_empty (U : ucd) (k : Z) : Cipher.caesar_cipher U k [] = [].
Proof. reflexivity. Qed.

Example str_of_nat_10 : str_of_nat 0 = str "0" /\ str_of_nat 10 = str "10".
Proof. split; reflexivity. Qed.

Example process_hola :
  let r := Worker.process_message ucd_latin_cyrillic
             (PDict [(str "message", PStr (str "Hola"));
                     (str "timestamp", PStr (str "2023-12-31T23:59:59"));
                     (str "status", PStr (str "pending"))])
             (wstate0 [] (Ok tt)) in
  fst r = Ok [ (str "message", PStr (str "Hola"));
               (str "timestamp", PStr (str "2023-12-31T23:59:59"));
               (str "status", PStr (str "processed"));
               (str "original_message", PStr (str "Hola"));
               (str "encrypted_message", PStr (str "Krod"));
               (str "processed_at", PStr (str "2024-01-01T00:00:00"));
               (str "cipher_shift", PInt 3) ].
Proof. reflexivity. Qed.

(** * Further properties of the code *)

(** ** [caesar_cipher] *)

Section CipherLaws.
Variable U : ucd.

Lemma caesar_char_compose (k1 k2 c : Z) :
  Cipher.caesar_char U k2 (Cipher.caesar_char U k1 c)
  = Cipher.caesar_char U (k1 + k2) c.
Proof.
  destruct (char_isalpha U c) eqn:Ha.
  - unfold Cipher.caesar_char at 2 3. rewrite Ha.
    destruct (char_isupper U c); unfold ord_A, ord_a.
    + assert (Hu : ascii_upper (65 + (c - 65 + k1) mod 26) = true).
      { apply ascii_upper_range. pose proof (Z.mod_pos_bound (c - 65 + k1) 26). lia. }
      destruct (caesar_char_upper U k2 _ Hu) as [-> _].
      replace (65 + (c - 65 + k1) mod 26 - 65 + k2) with ((c - 65 + k1) mod 26 + k2) by lia.
      rewrite Zplus_mod_idemp_l. do 2 f_equal. lia.
    + assert (Hl : ascii_lower (97 + (c - 97 + k1) mod 26) = true).
      { apply ascii_lower_range. pose proof (Z.mod_pos_bound (c - 97 + k1) 26). lia. }
      destruct (caesar_char_lower U k2 _ Hl) as [-> _].
      replace (97 + (c - 97 + k1) mod 26 - 97 + k2) with ((c - 97 + k1) mod 26 + k2) by lia.
      rewrite Zplus_mod_idemp_l. do 2 f_equal. lia.
  - now rewrite !(caesar_char_not_alpha U _ c Ha).
Qed.

(** X2.  Two passes are one pass with the sum of the shifts, on every text
    and for any classification of the characters above ASCII. *)
Theorem caesar_cipher_compose (k1 k2 : Z) (s : pystr) :
  Cipher.caesar_cipher U k2 (Cipher.caesar_cipher U k1 s)
  = Cipher.caesar_cipher U (k1 + k2) s.
Proof.
  unfold Cipher.caesar_cipher. rewrite map_map.
  apply map_ext. intros c. apply caesar_char_compose.
Qed.

Lemma caesar_char_period (k1 k2 c : Z) :
  k1 mod 26 = k2 mod 26 ->
  Cipher.caesar_char U k1 c = Cipher.caesar_char U k2 c.
Proof.
  intros Hk. unfold Cipher.caesar_char.
  destruct (char_isalpha U c); [|reflexivity].
  destruct (char_isupper U c); f_equal;
    rewrite (Zplus_mod _ k1), (Zplus_mod _ k2), Hk; reflexivity.
Qed.

(** X3.  Only the shift modulo 26 matters: two shifts with the same
    remainder give the same output on every text. *)
Theorem caesar_cipher_period (k1 k2 : Z) (s : pystr) :
  k1 mod 26 = k2 mod 26 ->
  Cipher.caesar_cipher U k1 s = Cipher.caesar_cipher U k2 s.
Proof.
  intros Hk. unfold Cipher.caesar_cipher.
  apply map_ext. intros c. now apply caesar_char_period.
Qed.

(** X4.  The output has the length of the input, and position by position
    an uppercase ASCII letter gives an uppercase ASCII letter, a lowercase one
    a lowercase one, each rotated by the shift inside its own 26 letters, and
    a character that [isalpha] rejects is copied. *)
Theorem caesar_cipher_keeps_case (k : Z) (s : pystr) :
  List.length (Cipher.caesar_cipher U k s) = List.length s
  /\ forall i c,
       nth_error s i = Some c ->
       exists c',
         nth_error (Cipher.caesar_cipher U k s) i = Some c'
         /\ (ascii_upper c = true ->
             ascii_upper c' = true /\ c' = 65 + (c - 65 + k) mod 26)
         /\ (ascii_lower c = true ->
             ascii_lower c' = true /\ c' = 97 + (c - 97 + k) mod 26)
         /\ (char_isalpha U c = false -> c' = c).
Proof.
  split; [apply length_map|].
  intros i c Hi. exists (Cipher.caesar_char U k c).
  split; [unfold Cipher.caesar_cipher; now apply map_nth_error|].
  split; [|split].
  - intros Hu. destruct (caesar_char_upper U k c Hu). tauto.
  - intros Hl. destruct (caesar_char_lower U k c Hl). tauto.
  - apply caesar_char_not_alpha.
Qed.

(** X5.  Whatever went in, every character of the output that [isalpha]
    accepts is an ASCII letter; so an output can always be shifted by any
    [j] and back without loss. *)
Theorem caesar_cipher_output_round_trip (k j : Z) (s : pystr) :
  Forall (fun c => char_isalpha U c = true -> ascii_letter c = true)
    (Cipher.caesar_cipher U k s)
  /\ Cipher.caesar_cipher U (- j)
       (Cipher.caesar_cipher U j (Cipher.caesar_cipher U k s))
     = Cipher.caesar_cipher U k s.
Proof.
  assert (Hout : forall c, char_isalpha U (Cipher.caesar_char U k c) = true ->
                           ascii_letter (Cipher.caesar_char U k c) = true).
  { intros c Hc. destruct (char_isalpha U c) eqn:Ha.
    - now apply caesar_char_alpha_ascii.
    - rewrite (caesar_char_not_alpha U k c Ha) in Hc. congruence. }
  split.
  - unfold Cipher.caesar_cipher. apply Forall_forall. intros c' Hin.
    apply in_map_iff in Hin as (c & <- & _). apply Hout.
  - unfold Cipher.caesar_cipher. rewrite !map_map. apply map_ext.
    intros c. apply caesar_char_inverse, Hout.
Qed.

(** X6.  A shift that is a multiple of 26 leaves a text unchanged when all
    its letters are ASCII. *)
Theorem caesar_cipher_full_turn (k : Z) (s : pystr) :
  k mod 26 = 0 ->
  Forall (fun c => char_isalpha U c = true -> ascii_letter c = true) s ->
  Cipher.caesar_cipher U k s = s.
Proof.
  intros Hk Hs. unfold Cipher.caesar_cipher.
  induction Hs as [|c s Hc _ IH]; simpl; [reflexivity|]. f_equal; [|exact IH].
  destruct (char_isalpha U c) eqn:Ha; [|now apply caesar_char_not_alpha].
  specialize (Hc eq_refl). unfold ascii_letter in Hc.
  apply orb_true_iff in Hc as [Hu | Hl].
  - destruct (caesar_char_upper U k c Hu) as [-> _]. apply ascii_upper_range in Hu.
    rewrite Zplus_mod, Hk, Z.add_0_r, Z.mod_mod, Z.mod_small by lia. lia.
  - destruct (caesar_char_lower U k c Hl) as [-> _]. apply ascii_lower_range in Hl.
    rewrite Zplus_mod, Hk, Z.add_0_r, Z.mod_mod, Z.mod_small by lia. lia.
Qed.

End CipherLaws.

Lemma ascii_text_hola_mundo :
  Forall (fun c => char_isalpha ucd_latin_cyrillic c = true -> ascii_letter c = true)
    (str "Hola, mundo!").
Proof.
  repeat (apply Forall_cons;
          [vm_compute; intro; first [reflexivity | discriminate]|]).
  apply Forall_nil.
Defined.

Lemma caesar_cipher_inverse_ascii_witness :
  Cipher.caesar_cipher ucd_latin_cyrillic (- 3)
    (Cipher.caesar_cipher ucd_latin_cyrillic 3 (str "Hola, mundo!"))
  = str "Hola, mundo!".
Proof.
  exact (caesar_cipher_inverse_ascii ucd_latin_cyrillic 3 (str "Hola, mundo!")
           ascii_text_hola_mundo).
Defined.

Lemma caesar_cipher_period_witness :
  Cipher.caesar_cipher ucd_latin_cyrillic 29 sample_message
  = Cipher.caesar_cipher ucd_latin_cyrillic 3 sample_message.
Proof. exact (caesar_cipher_period ucd_latin_cyrillic 29 3 sample_message eq_refl). Defined.

Lemma caesar_cipher_full_turn_witness :
  Cipher.caesar_cipher ucd_latin_cyrillic 52 (str "Hola, mundo!") = str "Hola, mundo!".
Proof.
  exact (caesar_cipher_full_turn ucd_latin_cyrillic 52 (str "Hola, mundo!")
           eq_refl ascii_text_hola_mundo).
Defined.

(** ** The worker, continued *)

Ltac wrun :=
  unfold Worker.consume_message, Worker.sqs_receive_message, Worker.sqs_delete_message,
    Worker.read_receipt_handle, Worker.bind_receipt_handle,
    Worker.incr_processed_count, Worker.loads,
    Worker.get_queue_stats, Worker._shutdown, Worker.log, Worker.in_env, call, clock,
    try_except, try_finally, bind, ret, raise, gets, modify, lift_result,
    Worker.count, Worker.calls in *;
  simpl in *.

Section WorkerMore.
Context {S : Type} `{SQSClient S}.
Variable U : ucd.
Variable json_loads : pystr -> result pyval.

Import Worker.

Lemma caesar_item_raises (k : Z) (item : pyval) (e : exn) :
  Cipher.caesar_item U k item = Raise e -> e = TypeError \/ e = AttributeError.
Proof.
  destruct item; simpl; try (intros [= <-]; now right).
  destruct (str_isalpha U s); [|discriminate].
  destruct s as [|c [|c' s]]; intros [= <-]; now left.
Qed.

Lemma caesar_items_raises (k : Z) (items : list pyval) (e : exn) :
  Cipher.caesar_items U k items = Raise e -> e = TypeError \/ e = AttributeError.
Proof.
  induction items as [|item items IH]; simpl; [discriminate|].
  destruct (Cipher.caesar_item U k item) as [s|e'] eqn:Hitem.
  - destruct (Cipher.caesar_items U k items) as [r|e'']; [discriminate|].
    intros [= <-]. now apply IH.
  - intros [= <-]. now apply caesar_item_raises in Hitem.
Qed.

(** The cipher raises nothing but [TypeError] and [AttributeError]. *)
Lemma caesar_cipher_dyn_raises (k : Z) (text : pyval) (e : exn) :
  Cipher.caesar_cipher_dyn U k text = Raise e -> e = TypeError \/ e = AttributeError.
Proof.
  unfold Cipher.caesar_cipher_dyn.
  destruct text; simpl; try (intros [= <-]; now left); apply caesar_items_raises.
Qed.

Lemma untransformable_kind (k : Z) (payload : pyval) (e : exn) :
  untransformable U k payload e -> e = TypeError \/ e = AttributeError.
Proof.
  intros [[_ ->] | (d & _ & Hd)]; [now right | now apply caesar_cipher_dyn_raises in Hd].
Qed.

(** A payload that cannot be transformed: [process_message] raises before
    it reads the clock. *)
Lemma process_message_raises (st : wstate S) (payload : pyval) (e : exn) :
  untransformable U (shift (self st)) payload e ->
  process_message U payload st
  = (Raise e,
     {| self := self st;
        env := {| sqs := sqs (env st);
                  history := history (env st) ++ [ProcessMessage payload] |};
        receipt_handle := receipt_handle st |}).
Proof.
  intros [[Hnd ->] | (d & -> & Hd)]; unfold process_message; wrun.
  - destruct payload; try reflexivity. now destruct (Hnd d).
  - now rewrite Hd.
Qed.

Lemma consume_message_transform_raises
    (st : wstate S) (m : message) (rest : list message) (s1 : S)
    (payload : pyval) (e : exn) :
  receive_message (queue_url (self st)) 1 20 (sqs (env st)) = (Ok (m :: rest), s1) ->
  json_loads (Body m) = Ok payload ->
  untransformable U (shift (self st)) payload e ->
  consume_message U json_loads st
  = (Raise e,
     {| self := self st;
        env := {| sqs := s1;
                  history := history (env st)
                             ++ [ReceiveMessage (queue_url (self st)) 1 20;
                                 ProcessMessage payload] |};
        receipt_handle := Some (ReceiptHandle m) |}).
Proof.
  intros Hrecv Hjson Hbad.
  pose proof (untransformable_kind _ _ _ Hbad) as Hkind.
  pose proof (process_message_raises (leased st m s1) payload e Hbad) as Hp.
  unfold leased in Hp. wrun. rewrite Hrecv. simpl. rewrite Hjson. simpl.
  rewrite Hp. simpl. rewrite <- app_assoc. simpl.
  destruct Hkind as [-> | ->]; reflexivity.
Qed.

(** X7.  A message whose body is valid JSON but cannot be transformed (it is
    no object, or its [message] is no text) makes [consume_message] raise:
    the message is not deleted and [processed_count] stays. *)
Theorem consume_message_untransformable
    (st : wstate S) (m : message) (rest : list message) (s1 : S)
    (payload : pyval) (e : exn) :
  receive_message (queue_url (self st)) 1 20 (sqs (env st)) = (Ok (m :: rest), s1) ->
  json_loads (Body m) = Ok payload ->
  untransformable U (shift (self st)) payload e ->
  let st' := snd (consume_message U json_loads st) in
  fst (consume_message U json_loads st) = Raise e
  /\ count st' = count st
  /\ calls st' = calls st ++ [ReceiveMessage (queue_url (self st)) 1 20;
                              ProcessMessage payload]
  /\ existsb is_DeleteMessage (calls st') = existsb is_DeleteMessage (calls st).
Proof.
  intros Hrecv Hjson Hbad st'. subst st'.
  rewrite (consume_message_transform_raises st m rest s1 payload e Hrecv Hjson Hbad).
  unfold count, calls. simpl. repeat split.
  rewrite existsb_app. simpl. now rewrite orb_false_r.
Qed.

(** [get_queue_stats], in full. *)
Lemma get_queue_stats_run (st : wstate S) :
  get_queue_stats st
  = (match fst (get_queue_attributes (queue_url (self st)) (sqs (env st))) with
     | Ok a => Ok a
     | Raise (ClientError _) => Ok []
     | Raise e => Raise e
     end, after_stats st).
Proof.
  unfold after_stats. wrun.
  destruct (get_queue_attributes (queue_url (self st)) (sqs (env st))) as [[a|e] s'];
    simpl; [|destruct e]; reflexivity.
Qed.

Lemma shutdown_run (st : wstate S) :
  snd (_shutdown st) = after_stats st
  /\ (answered (fst (get_queue_attributes (queue_url (self st)) (sqs (env st)))) = true ->
      fst (_shutdown st) = Ok tt).
Proof.
  unfold _shutdown, bind, ret. rewrite get_queue_stats_run.
  destruct (fst (get_queue_attributes (queue_url (self st)) (sqs (env st)))) as [a|e];
    [|destruct e]; simpl; split; auto; discriminate.
Qed.

Lemma shutdown_raises (st : wstate S) (e : exn) :
  fst (get_queue_attributes (queue_url (self st)) (sqs (env st))) = Raise e ->
  is_ClientError e = false ->
  fst (_shutdown st) = Raise e.
Proof.
  intros Hr He. unfold _shutdown, bind, ret. rewrite get_queue_stats_run, Hr.
  destruct e; try reflexivity; discriminate.
Qed.

(** [start] when the first statistics read answers: the loop, then the
    shutdown on every way out of it. *)
Lemma start_run (fuel : nat) (continuous : bool) (max_messages : option Z)
    (st : wstate S) :
  answered (fst (get_queue_attributes (queue_url (self st)) (sqs (env st)))) = true ->
  start U json_loads fuel continuous max_messages st
  = match while_true U json_loads fuel continuous max_messages (after_stats st) with
    | (Ok false, st') => (Ok false, st')
    | (Ok true, st') => try_finally (ret true) _shutdown st'
    | (Raise KeyboardInterrupt, st') => try_finally (ret true) _shutdown st'
    | (Raise e, st') => try_finally (raise e) _shutdown st'
    end.
Proof.
  intros Hans. unfold start. unfold bind at 1. rewrite get_queue_stats_run.
  destruct (fst (get_queue_attributes (queue_url (self st)) (sqs (env st)))) as [a|e];
    [|destruct e; try discriminate];
    unfold try_except;
    destruct (while_true U json_loads fuel continuous max_messages (after_stats st))
      as [[[]|e'] st']; try reflexivity; destruct e'; reflexivity.
Qed.

(** [start] when the first statistics read raises something else than
    [ClientError]: nothing more happens. *)
Lemma start_stats_raises (fuel : nat) (continuous : bool) (max_messages : option Z)
    (st : wstate S) (e : exn) :
  fst (get_queue_attributes (queue_url (self st)) (sqs (env st))) = Raise e ->
  is_ClientError e = false ->
  start U json_loads fuel continuous max_messages st = (Raise e, after_stats st).
Proof.
  intros Hr He. unfold start. unfold bind at 1. rewrite get_queue_stats_run, Hr.
  destruct e; try reflexivity; discriminate.
Qed.

Lemma try_finally_shutdown {A} (m : M (wstate S) A) (st : wstate S) :
  snd (try_finally m _shutdown st) = after_stats (snd (m st)).
Proof.
  rewrite try_finally_state. apply shutdown_run.
Qed.

Lemma try_finally_raise (e : exn) (st : wstate S) :
  exists e', fst (try_finally (raise e) _shutdown st) = (Raise e' : result bool).
Proof.
  unfold try_finally, raise. destruct (_shutdown st) as [[u|e'] st']; simpl; eauto.
Qed.

(** X8.  Such a message ends the whole run in either mode.  When the first
    statistics read answers, the calls of the run are exactly that read, the
    receive, [process_message] and the shutdown's statistics read: no delete
    is made, so the message stays in the queue, and the counter is unchanged.
    [start] raises the transform's exception, or the exception of the
    shutdown's read if that one raises something else than [ClientError]. *)
Theorem start_raises_on_untransformable
    (st : wstate S) (fuel : nat) (continuous : bool) (max_messages : option Z)
    (m : message) (rest : list message) (s1 : S) (payload : pyval) (e : exn) :
  answered (fst (get_queue_attributes (queue_url (self st)) (sqs (env st)))) = true ->
  limit_reached max_messages (count st) = false ->
  receive_message (queue_url (self st)) 1 20 (sqs (env (after_stats st)))
    = (Ok (m :: rest), s1) ->
  json_loads (Body m) = Ok payload ->
  untransformable U (shift (self st)) payload e ->
  let run := start U json_loads (Datatypes.S fuel) continuous max_messages st in
  let last := fst (get_queue_attributes (queue_url (self st)) s1) in
  calls (snd run)
  = calls st ++ [GetQueueAttributes (queue_url (self st));
                 ReceiveMessage (queue_url (self st)) 1 20;
                 ProcessMessage payload;
                 GetQueueAttributes (queue_url (self st))]
  /\ count (snd run) = count st
  /\ (answered last = true -> fst run = Raise e)
  /\ (forall e', last = Raise e' -> is_ClientError e' = false -> fst run = Raise e').
Proof.
  intros Hans Hlimit Hrecv Hjson Hbad run last. subst run last.
  set (st2 := {| self := self st;
                 env := {| sqs := s1;
                           history := history (env (after_stats st))
                                      ++ [ReceiveMessage (queue_url (self st)) 1 20;
                                          ProcessMessage payload] |};
                 receipt_handle := Some (ReceiptHandle m) |}).
  assert (Hbody : loop_body U json_loads continuous max_messages (after_stats st)
                  = (Raise e, st2)).
  { unfold loop_body, bind, gets. simpl. fold (count st). rewrite Hlimit.
    now rewrite (consume_message_transform_raises (after_stats st) m rest s1 payload e
                   Hrecv Hjson Hbad). }
  assert (Hstart : start U json_loads (Datatypes.S fuel) continuous max_messages st
                   = try_finally (raise e) _shutdown st2).
  { rewrite start_run by exact Hans.
    cbn [while_true]. unfold bind at 1. rewrite Hbody.
    destruct (untransformable_kind _ _ _ Hbad) as [-> | ->]; reflexivity. }
  rewrite Hstart, try_finally_shutdown.
  split; [|split; [|split]].
  - unfold calls. simpl. now rewrite <- !app_assoc.
  - reflexivity.
  - intros Hlast. destruct (shutdown_run st2) as [_ Hok]. specialize (Hok Hlast).
    unfold try_finally, raise. destruct (_shutdown st2) as [[[]|e'] st3];
      simpl in *; congruence.
  - intros e' Hlast He'. pose proof (shutdown_raises st2 e' Hlast He') as Hr.
    unfold try_finally, raise. destruct (_shutdown st2) as [[[]|e''] st3];
      simpl in *; congruence.
Qed.

(** X22.  A start whose counter has already reached a non-zero limit makes
    no call but the statistics reads, the first one and, when that answers,
    the shutdown's: nothing is received or deleted and the counter stays.
    It returns normally when both reads answer. *)
Theorem start_limit_reached
    (st : wstate S) (fuel : nat) (continuous : bool) (max_messages : Z) :
  max_messages <> 0 ->
  max_messages <= count st ->
  let url := queue_url (self st) in
  let first := fst (get_queue_attributes url (sqs (env st))) in
  let last := fst (get_queue_attributes url (sqs (env (after_stats st)))) in
  let run := start U json_loads (Datatypes.S fuel) continuous (Some max_messages) st in
  count (snd run) = count st
  /\ (answered first = true ->
      calls (snd run) = calls st ++ [GetQueueAttributes url; GetQueueAttributes url]
      /\ (answered last = true -> fst run = Ok true)
      /\ (forall e, last = Raise e -> is_ClientError e = false -> fst run = Raise e))
  /\ (forall e,
        first = Raise e -> is_ClientError e = false ->
        calls (snd run) = calls st ++ [GetQueueAttributes url]
        /\ fst run = Raise e).
Proof.
  intros Hnz Hle url first last run. subst url first last run.
  destruct (answered (fst (get_queue_attributes (queue_url (self st)) (sqs (env st)))))
    eqn:Hans.
  - assert (Hstart : start U json_loads (Datatypes.S fuel) continuous
                       (Some max_messages) st
                     = try_finally (ret true) _shutdown (after_stats st)).
    { rewrite start_run by exact Hans. cbn [while_true]. unfold bind at 1.
      now rewrite loop_body_limit_reached. }
    rewrite Hstart, try_finally_shutdown.
    split; [reflexivity|]. split.
    + intros _. split; [unfold calls; simpl; now rewrite <- app_assoc|]. split.
      * intros Hlast. destruct (shutdown_run (after_stats st)) as [_ Hok].
        specialize (Hok Hlast). unfold try_finally, ret.
        destruct (_shutdown (after_stats st)) as [[[]|e'] st3]; simpl in *; congruence.
      * intros e Hlast He.
        pose proof (shutdown_raises (after_stats st) e Hlast He) as Hr.
        unfold try_finally, ret.
        destruct (_shutdown (after_stats st)) as [[[]|e'] st3]; simpl in *; congruence.
    + intros e Hr He. rewrite Hr in Hans. simpl in Hans. congruence.
  - split; [|split; [discriminate|]].
    + destruct (fst (get_queue_attributes (queue_url (self st)) (sqs (env st))))
        as [a|e0] eqn:Hr; [discriminate|].
      now rewrite (start_stats_raises _ _ _ st e0 Hr Hans).
    + intros e Hr He. rewrite (start_stats_raises _ _ _ st e Hr He).
      split; reflexivity.
Qed.

Lemma consume_message_empty (st : wstate S) (s1 : S) :
  receive_message (queue_url (self st)) 1 20 (sqs (env st)) = (Ok [], s1) ->
  consume_message U json_loads st
  = (Ok None,
     {| self := self st;
        env := {| sqs := s1;
                  history := history (env st)
                             ++ [ReceiveMessage (queue_url (self st)) 1 20] |};
        receipt_handle := None |}).
Proof. intros Hrecv. wrun. now rewrite Hrecv. Qed.

Lemma consume_message_receive_raises (st : wstate S) (e : exn) (s1 : S) :
  receive_message (queue_url (self st)) 1 20 (sqs (env st)) = (Raise e, s1) ->
  consume_message U json_loads st
  = (match e with
     | ClientError _ | JSONDecodeError => Ok None
     | _ => Raise e
     end,
     {| self := self st;
        env := {| sqs := s1;
                  history := history (env st)
                             ++ [ReceiveMessage (queue_url (self st)) 1 20] |};
        receipt_handle := None |}).
Proof. intros Hrecv. wrun. rewrite Hrecv. destruct e; reflexivity. Qed.

(** X9.  A receive that returns no message: [consume_message] returns
    [None] after that one call, with nothing deleted and the counter as it
    was; below the limit, the pass then leaves the loop in single-run mode
    and goes on in continuous mode. *)
Theorem consume_message_empty_receive (st : wstate S) (s1 : S) :
  receive_message (queue_url (self st)) 1 20 (sqs (env st)) = (Ok [], s1) ->
  let st' := snd (consume_message U json_loads st) in
  fst (consume_message U json_loads st) = Ok None
  /\ count st' = count st
  /\ calls st' = calls st ++ [ReceiveMessage (queue_url (self st)) 1 20]
  /\ forall max_messages,
       limit_reached max_messages (count st) = false ->
       fst (loop_body U json_loads false max_messages st) = Ok Break
       /\ fst (loop_body U json_loads true max_messages st) = Ok Continue.
Proof.
  intros Hrecv st'. subst st'.
  pose proof (consume_message_empty st s1 Hrecv) as Hc.
  rewrite Hc. repeat split.
  all: unfold loop_body, bind, gets; fold (count st);
    match goal with Hl : limit_reached _ _ = false |- _ => rewrite Hl end;
    now rewrite Hc.
Qed.

(** X10.  A receive that raises: nothing is deleted and the counter stays.
    [ClientError] gives [None]; any other exception leaves
    [consume_message] as it is. *)
Theorem consume_message_receive_fails (st : wstate S) (e : exn) (s1 : S) :
  receive_message (queue_url (self st)) 1 20 (sqs (env st)) = (Raise e, s1) ->
  let st' := snd (consume_message U json_loads st) in
  count st' = count st
  /\ calls st' = calls st ++ [ReceiveMessage (queue_url (self st)) 1 20]
  /\ (is_ClientError e = true -> fst (consume_message U json_loads st) = Ok None)
  /\ (is_ClientError e = false -> e <> JSONDecodeError ->
      fst (consume_message U json_loads st) = Raise e).
Proof.
  intros Hrecv st'. subst st'.
  rewrite (consume_message_receive_raises st e s1 Hrecv).
  repeat split; destruct e; simpl; intros; congruence.
Qed.

Lemma while_true_count (continuous : bool) (max_messages : option Z) (fuel : nat) :
  forall st : wstate S,
    count st <= count (snd (while_true U json_loads fuel continuous max_messages st))
             <= count st + Z.of_nat fuel.
Proof.
  induction fuel as [|fuel IH]; intros st.
  - simpl. lia.
  - cbn [while_true]. unfold bind.
    pose proof (loop_body_count U json_loads continuous max_messages st) as Hstep.
    destruct (loop_body U json_loads continuous max_messages st) as [[[]|e] st1];
      simpl in *; try lia.
    specialize (IH st1). lia.
Qed.

(** X11.  Over a whole run of [start], in any mode and with any limit,
    [processed_count] never goes down and grows by at most one for each pass
    through the loop. *)
Theorem start_counter_bounds
    (fuel : nat) (continuous : bool) (max_messages : option Z) (st : wstate S) :
  count st
  <= count (snd (start U json_loads fuel continuous max_messages st))
  <= count st + Z.of_nat fuel.
Proof.
  destruct (answered (fst (get_queue_attributes (queue_url (self st)) (sqs (env st)))))
    eqn:Hans.
  - rewrite start_run by exact Hans.
    pose proof (while_true_count continuous max_messages fuel (after_stats st)) as Hw.
    change (count (after_stats st)) with (count st) in Hw.
    destruct (while_true U json_loads fuel continuous max_messages (after_stats st))
      as [[[]|e] st']; simpl in Hw;
      [| |destruct e]; rewrite ?try_finally_shutdown; simpl; exact Hw.
  - destruct (fst (get_queue_attributes (queue_url (self st)) (sqs (env st))))
      as [a|e0] eqn:Hr; [discriminate|].
    rewrite (start_stats_raises _ _ _ st e0 Hr Hans).
    change (count (snd (Raise e0 : result bool, after_stats st))) with (count st). lia.
Qed.

(** X12.  A [KeyboardInterrupt] during the receive ends the run quietly:
    when the two statistics reads answer, [start] returns normally, having
    made the first read, the interrupted receive and the shutdown's read,
    and the counter is unchanged. *)
Theorem start_keyboard_interrupt
    (st : wstate S) (fuel : nat) (continuous : bool) (max_messages : option Z) (s1 : S) :
  answered (fst (get_queue_attributes (queue_url (self st)) (sqs (env st)))) = true ->
  limit_reached max_messages (count st) = false ->
  receive_message (queue_url (self st)) 1 20 (sqs (env (after_stats st)))
    = (Raise KeyboardInterrupt, s1) ->
  answered (fst (get_queue_attributes (queue_url (self st)) s1)) = true ->
  let run := start U json_loads (Datatypes.S fuel) continuous max_messages st in
  fst run = Ok true
  /\ count (snd run) = count st
  /\ calls (snd run)
     = calls st ++ [GetQueueAttributes (queue_url (self st));
                    ReceiveMessage (queue_url (self st)) 1 20;
                    GetQueueAttributes (queue_url (self st))].
Proof.
  intros Hans Hlimit Hrecv Hans' run. subst run.
  set (st2 := {| self := self st;
                 env := {| sqs := s1;
                           history := history (env (after_stats st))
                                      ++ [ReceiveMessage (queue_url (self st)) 1 20] |};
                 receipt_handle := None |}).
  assert (Hstart : start U json_loads (Datatypes.S fuel) continuous max_messages st
                   = try_finally (ret true) _shutdown st2).
  { rewrite start_run by exact Hans.
    cbn [while_true]. unfold bind at 1.
    unfold loop_body, bind, gets. simpl. fold (count st). rewrite Hlimit.
    now rewrite (consume_message_receive_raises (after_stats st) _ s1 Hrecv). }
  rewrite Hstart. split.
  - unfold try_finally, ret. destruct (shutdown_run st2) as [_ Hok].
    specialize (Hok Hans'). destruct (_shutdown st2) as [[[]|e] st3]; simpl in *; congruence.
  - rewrite try_finally_shutdown. unfold calls, count. simpl.
    rewrite <- !app_assoc. split; reflexivity.
Qed.

(** X13.  On a dict whose [message] is a text, or has none (then the text
    is empty), [process_message] returns a payload in which
    [original_message] is that text, [encrypted_message] its cipher,
    [status] is "processed", [processed_at] the clock reading and
    [cipher_shift] the worker's shift. *)
Theorem process_message_sets_fields (st : wstate S) (d : dict) (text : pystr) :
  dict_get_default (str "message") (PStr []) d = PStr text ->
  exists processed,
    fst (process_message U (PDict d) st) = Ok processed
    /\ dict_get (str "original_message") processed = Some (PStr text)
    /\ dict_get (str "encrypted_message") processed
       = Some (PStr (Cipher.caesar_cipher U (shift (self st)) text))
    /\ dict_get (str "status") processed = Some (PStr (str "processed"))
    /\ dict_get (str "processed_at") processed
       = Some (PStr (fst (now_isoformat (sqs (env st)))))
    /\ dict_get (str "cipher_shift") processed = Some (PInt (shift (self st))).
Proof.
  intros Htext. unfold process_message. wrun.
  rewrite Htext, caesar_cipher_dyn_str. simpl.
  destruct (now_isoformat (sqs (env st))) as [now s2]. simpl.
  eexists. split; [reflexivity|].
  repeat split;
    rewrite ?dict_get_set_other by (vm_compute; discriminate);
    apply dict_get_set_same.
Qed.

(** X14.  A payload without a [message] key is processed as the empty
    text: both new message fields are empty and the [message] key stays
    absent. *)
Theorem process_message_missing_message (st : wstate S) (d : dict) :
  dict_get (str "message") d = None ->
  exists processed,
    fst (process_message U (PDict d) st) = Ok processed
    /\ dict_get (str "original_message") processed = Some (PStr [])
    /\ dict_get (str "encrypted_message") processed = Some (PStr [])
    /\ dict_get (str "message") processed = None.
Proof.
  intros Hnone.
  assert (Htext : dict_get_default (str "message") (PStr []) d = PStr []).
  { unfold dict_get_default. now rewrite Hnone. }
  destruct (process_message_dict U json_loads st d [])
    as (processed & Hp & _ & _ & Henc & _ & Hframe).
  { rewrite Htext. apply caesar_cipher_dyn_str. }
  exists processed. rewrite Hp. split; [reflexivity|].
  split; [|split; [exact Henc|]].
  - revert Hp. unfold process_message. wrun.
    rewrite Htext, caesar_cipher_dyn_str. simpl.
    destruct (now_isoformat (sqs (env st))) as [now s2]. simpl.
    intros [= <-].
    rewrite !dict_get_set_other by (vm_compute; discriminate).
    apply dict_get_set_same.
  - rewrite Hframe; [exact Hnone|]. vm_compute. intuition discriminate.
Qed.

(** X15.  The whole cycle on a message in the producer's format: when the
    body decodes to the envelope of [text] and the delete succeeds,
    [consume_message] returns the envelope with [status] overwritten in
    place and the four new fields appended in the order they are assigned,
    and [processed_count] has grown by one. *)
Theorem consume_message_envelope
    (st : wstate S) (m : message) (rest : list message) (s1 s3 : S)
    (text timestamp : pystr) :
  receive_message (queue_url (self st)) 1 20 (sqs (env st)) = (Ok (m :: rest), s1) ->
  json_loads (Body m) = Ok (PDict (envelope (PStr text) timestamp)) ->
  delete_message (queue_url (self st)) (ReceiptHandle m) (snd (now_isoformat s1))
    = (Ok tt, s3) ->
  let st' := snd (consume_message U json_loads st) in
  fst (consume_message U json_loads st)
  = Ok (Some [ (str "message", PStr text);
               (str "timestamp", PStr timestamp);
               (str "status", PStr (str "processed"));
               (str "original_message", PStr text);
               (str "encrypted_message",
                PStr (Cipher.caesar_cipher U (shift (self st)) text));
               (str "processed_at", PStr (fst (now_isoformat s1)));
               (str "cipher_shift", PInt (shift (self st))) ])
  /\ count st' = count st + 1
  /\ sqs (env st') = s3.
Proof.
  intros Hrecv Hjson Hdel st'. subst st'.
  unfold envelope in *. wrun.
  rewrite Hrecv. simpl. rewrite Hjson. simpl.
  unfold process_message. wrun.
  unfold Cipher.caesar_cipher_dyn. simpl. rewrite caesar_items_chars. simpl.
  destruct (now_isoformat s1) as [now s2]. simpl in *.
  rewrite Hdel. simpl. repeat split.
Qed.

End WorkerMore.

(** X16.  Building a worker looks the queue up once and never creates it:
    when the lookup returns, the object holds that URL, the given shift and
    a counter of 0; when it raises, not-found included, the same exception
    leaves the constructor. *)
Theorem worker_init_never_creates
    {S : Type} `{SQSClient S}
    (queue_name region_name : pystr) (shift : Z) (w : world S) :
  let reply := get_queue_url queue_name (sqs w) in
  let r := WorkerSetup.__init__ queue_name region_name shift w in
  history (snd r) = history w ++ [GetQueueUrl queue_name]
  /\ sqs (snd r) = snd reply
  /\ (forall url,
        fst reply = Ok url ->
        fst r = Ok {| Worker.queue_name := queue_name;
                      Worker.region_name := region_name;
                      Worker.shift := shift;
                      Worker.processed_count := 0;
                      Worker.queue_url := url |})
  /\ (forall e, fst reply = Raise e -> fst r = Raise e).
Proof.
  unfold WorkerSetup.__init__, WorkerSetup._get_queue_url,
    bind, try_except, call, ret, raise. simpl.
  destruct (get_queue_url queue_name (sqs w)) as [[url|e] s1]; simpl.
  - repeat split; intros; congruence.
  - destruct e; simpl; repeat split; intros; congruence.
Qed.

(** ** The producer, continued *)

Lemma str_injective (s s' : string) : str s = str s' -> s = s'.
Proof.
  unfold str. intros Heq.
  rewrite <- (string_of_list_ascii_of_string s), <- (string_of_list_ascii_of_string s').
  f_equal. revert Heq.
  generalize (list_ascii_of_string s) (list_ascii_of_string s').
  induction l as [|a l IH]; intros [|a' l']; simpl; try discriminate; [reflexivity|].
  intros [= Ha Hl]. f_equal; [|now apply IH].
  apply N2Z.inj in Ha.
  rewrite <- (ascii_N_embedding a), <- (ascii_N_embedding a'). now rewrite Ha.
Qed.

(** [str(idx)] is different for different indices. *)
Lemma str_of_nat_injective (n n' : nat) : str_of_nat n = str_of_nat n' -> n = n'.
Proof.
  unfold str_of_nat. intros Heq. apply str_injective in Heq.
  assert (Hu : Nat.to_uint n = Nat.to_uint n').
  { pose proof (NilEmpty.usu (Nat.to_uint n)) as H1.
    pose proof (NilEmpty.usu (Nat.to_uint n')) as H2.
    rewrite Heq in H1. congruence. }
  rewrite <- (DecimalNat.Unsigned.of_to n), <- (DecimalNat.Unsigned.of_to n').
  now rewrite Hu.
Qed.

Lemma str_of_nat_seq_NoDup (len start : nat) :
  NoDup (map str_of_nat (seq start len)).
Proof.
  revert start. induction len as [|len IH]; intros start; simpl; constructor.
  - intros Hin. apply in_map_iff in Hin as (n & Hn & Hseq).
    apply str_of_nat_injective in Hn. apply in_seq in Hseq. lia.
  - apply IH.
Qed.

Section ProducerMore.
Context {S : Type} `{SQSClient S} `{SQSSendClient S}.
Variable json_dumps : pyval -> pystr.

#[local] Arguments encodable : simpl never.
#[local] Arguments printable : simpl nomatch.

Import Producer.

(** X17.  The entries [send_batch] builds follow the input: the entry at
    position i has Id [str(idx + i)] and its body is the serialised envelope
    of the i-th message with status "pending"; so the Ids of one request are
    pairwise different. *)
Theorem build_entries_in_order (messages : list pyval) :
  forall (idx : nat) (st st1 : pstate S) (entries : list entry),
    build_entries json_dumps idx messages st = (Ok entries, st1) ->
    map Id entries = map str_of_nat (seq idx (List.length messages))
    /\ NoDup (map Id entries)
    /\ Forall2 (fun msg e =>
                  exists now, MessageBody e = json_dumps (PDict (envelope msg now)))
         messages entries.
Proof.
  assert (Hmain : forall (idx : nat) (st st1 : pstate S) (entries : list entry),
             build_entries json_dumps idx messages st = (Ok entries, st1) ->
             map Id entries = map str_of_nat (seq idx (List.length messages))
             /\ Forall2 (fun msg e =>
                           exists now, MessageBody e = json_dumps (PDict (envelope msg now)))
                  messages entries).
  { induction messages as [|msg rest IH]; intros idx st st1 entries; simpl.
    - unfold ret. intros [= <- _]. split; constructor.
    - unfold bind at 1, in_env, clock.
      destruct (now_isoformat (sqs (env st))) as [now s']. simpl.
      unfold bind at 1.
      match goal with |- context [build_entries _ _ _ ?st0] =>
        destruct (build_entries json_dumps (Datatypes.S idx) rest st0)
          as [[entries'|e] st2] eqn:Hrest
      end; [|discriminate].
      unfold ret. intros [= <- _].
      destruct (IH _ _ _ _ Hrest) as [Hids Hbodies].
      split; [simpl; now rewrite Hids|].
      constructor; [exists now; reflexivity | exact Hbodies]. }
  intros idx st st1 entries Hb.
  destruct (Hmain idx st st1 entries Hb) as [Hids Hbodies].
  split; [exact Hids|]. split; [|exact Hbodies].
  rewrite Hids. apply str_of_nat_seq_NoDup.
Qed.

(** X18.  An empty input still makes the batch call, with no entry and
    without reading the clock; the result is the service's reply to it,
    [{}] if that is a [ClientError]. *)
Theorem send_batch_empty (st : pstate S) :
  let url := queue_url (self st) in
  let reply := send_message_batch url [] (sqs (env st)) in
  let r := send_batch json_dumps [] st in
  calls (snd r) = calls st ++ [SendMessageBatch url []]
  /\ sqs (env (snd r)) = snd reply
  /\ (forall response, fst reply = Ok response -> fst r = Ok response)
  /\ (forall code, fst reply = Raise (ClientError code) -> fst r = Ok empty_dict).
Proof.
  unfold send_batch, in_env, call, try_except, bind, ret, gets, calls. simpl.
  destruct (send_message_batch (queue_url (self st)) [] (sqs (env st))) as [[resp|e] s1];
    simpl; [|destruct e; simpl]; repeat split; intros; congruence.
Qed.

(** X19.  [send_message] reads the clock twice, first for the envelope and
    then for the Timestamp attribute, and makes one send call with the
    serialised envelope.  When that call returns, the message and the
    returned id are printed: the result is [True] if both can be written,
    and [UnicodeEncodeError] leaves the method, with the message already
    sent, if the message is a text the output cannot encode.  When the call
    raises [ClientError] the result is [False]; any other exception goes
    through.  The producer object and the history of the other calls are
    untouched. *)
Theorem send_message_result (message : pyval) (st : pstate S) :
  let url := queue_url (self st) in
  let t1 := now_isoformat (sqs (env st)) in
  let t2 := now_isoformat (snd t1) in
  let body := json_dumps (PDict (envelope message (fst t1))) in
  let attrs := [ (str "Timestamp", fst t2, str "String");
                 (str "Source", str "producer-python", str "String") ] in
  let reply := client_send_message url body attrs (snd t2) in
  let r := ProducerSetup.send_message json_dumps message st in
  (forall message_id,
     fst reply = Ok message_id ->
     (printable message = true -> encodable message_id = true -> fst r = Ok true)
     /\ (printable message = false -> fst r = Raise UnicodeEncodeError))
  /\ (forall code, fst reply = Raise (ClientError code) -> fst r = Ok false)
  /\ (forall e, fst reply = Raise e -> is_ClientError e = false -> fst r = Raise e)
  /\ sqs (env (snd r)) = snd reply
  /\ calls (snd r) = calls st
  /\ self (snd r) = self st.
Proof.
  unfold ProducerSetup.send_message, ProducerSetup.sqs_send_message, envelope,
    in_env, clock, try_except, bind, ret, gets, calls, lift_result, print_formatted.
  simpl.
  destruct (now_isoformat (sqs (env st))) as [now1 s1]. simpl.
  destruct (now_isoformat s1) as [now2 s2]. simpl.
  match goal with |- context [client_send_message ?u ?b ?a ?s] =>
    destruct (client_send_message u b a s) as [[message_id|e] s3]
  end; simpl.
  - destruct (printable message) eqn:Hm; simpl;
      [destruct (encodable message_id) eqn:Hid; simpl|];
      repeat split; intros; try reflexivity; try congruence; try discriminate.
  - destruct e; simpl;
      repeat split; intros; try reflexivity; try congruence; try discriminate;
      match goal with
      | Hr : Raise _ = Raise ?e', Hc : is_ClientError ?e' = false |- _ =>
          injection Hr as <-; discriminate
      end.
Qed.

(** X20.  Building a producer: a lookup that returns gives the object that
    URL after the lookup alone; a lookup that finds no queue is followed by
    one create call with the three fixed attributes, and the object holds
    the created URL, or the create's exception leaves the constructor. *)
Theorem producer_init_result (queue_name region_name : pystr) (w : world S) :
  let lookup := get_queue_url queue_name (sqs w) in
  let created := create_queue queue_name queue_attributes (snd lookup) in
  let r := ProducerSetup.__init__ queue_name region_name w in
  let built url := {| Producer.queue_name := queue_name;
                      Producer.region_name := region_name;
                      Producer.queue_url := url |} in
  (forall url,
     fst lookup = Ok url ->
     fst r = Ok (built url)
     /\ history (snd r) = history w ++ [GetQueueUrl queue_name])
  /\ (fst lookup = Raise (ClientError NonExistentQueue) ->
      history (snd r) = history w ++ [GetQueueUrl queue_name;
                                      CreateQueue queue_name queue_attributes]
      /\ (forall url, fst created = Ok url -> fst r = Ok (built url))
      /\ (forall e, fst created = Raise e -> fst r = Raise e)).
Proof.
  unfold ProducerSetup.__init__, _get_or_create_queue,
    in_env, call, try_except, bind, ret, raise, gets. simpl.
  destruct (get_queue_url queue_name (sqs w)) as [[url|e] s1]; simpl.
  - split; [intros url' [= <-]; split; reflexivity | discriminate].
  - split; [discriminate|]. intros [= ->].
    rewrite pystr_eqb_refl. simpl.
    destruct (create_queue queue_name queue_attributes s1) as [[url|e] s2]; simpl;
      rewrite <- app_assoc; repeat split; intros; congruence.
Qed.

End ProducerMore.

(** ** Concrete runs of the further properties *)

Lemma five_is_untransformable :
  untransformable ucd_latin_cyrillic 3 (PInt 5) AttributeError.
Proof. left. split; [intros d; discriminate | reflexivity]. Defined.

Lemma consume_message_untransformable_witness :
  let st := wstate0 [msg_five] (Ok tt) in
  let st' := snd (Worker.consume_message ucd_latin_cyrillic loads_envelope st) in
  fst (Worker.consume_message ucd_latin_cyrillic loads_envelope st) = Raise AttributeError
  /\ Worker.count st' = 0
  /\ Worker.calls st' = [ReceiveMessage the_url 1 20; ProcessMessage (PInt 5)]
  /\ existsb is_DeleteMessage (Worker.calls st') = false.
Proof.
  exact (consume_message_untransformable ucd_latin_cyrillic loads_envelope
           (wstate0 [msg_five] (Ok tt)) msg_five [] (script0 [] (Ok tt))
           (PInt 5) AttributeError eq_refl eq_refl five_is_untransformable).
Defined.

Lemma start_raises_on_untransformable_witness :
  let st := wstate0 [msg_five] (Ok tt) in
  let run := Worker.start ucd_latin_cyrillic loads_envelope 3 true None st in
  Worker.calls (snd run)
  = [ GetQueueAttributes the_url; ReceiveMessage the_url 1 20;
      ProcessMessage (PInt 5); GetQueueAttributes the_url ]
  /\ Worker.count (snd run) = 0
  /\ fst run = Raise AttributeError.
Proof.
  pose proof (start_raises_on_untransformable ucd_latin_cyrillic loads_envelope
                (wstate0 [msg_five] (Ok tt)) 2 true None msg_five []
                (script0 [] (Ok tt)) (PInt 5) AttributeError
                eq_refl eq_refl eq_refl eq_refl five_is_untransformable)
    as (Hcalls & Hcount & Hraise & _).
  split; [exact Hcalls|]. split; [exact Hcount | exact (Hraise eq_refl)].
Defined.

Lemma consume_message_empty_receive_witness :
  let st := wstate0 [] (Ok tt) in
  fst (Worker.consume_message ucd_latin_cyrillic loads_table st) = Ok None
  /\ fst (Worker.loop_body ucd_latin_cyrillic loads_table false None st) = Ok Worker.Break
  /\ fst (Worker.loop_body ucd_latin_cyrillic loads_table true None st) = Ok Worker.Continue.
Proof.
  pose proof (consume_message_empty_receive ucd_latin_cyrillic loads_table
                (wstate0 [] (Ok tt)) (script0 [] (Ok tt)) eq_refl)
    as (Hnone & _ & _ & Hloop).
  split; [exact Hnone | exact (Hloop None eq_refl)].
Defined.

Lemma consume_message_receive_fails_witness :
  let st := wstate_fixed interrupted in
  Worker.calls (snd (Worker.consume_message ucd_latin_cyrillic loads_table st))
    = [ReceiveMessage the_url 1 20]
  /\ fst (Worker.consume_message ucd_latin_cyrillic loads_table st)
     = Raise KeyboardInterrupt.
Proof.
  pose proof (consume_message_receive_fails ucd_latin_cyrillic loads_table
                (wstate_fixed interrupted) KeyboardInterrupt interrupted eq_refl)
    as (_ & Hcalls & _ & Hraise).
  split; [exact Hcalls|]. apply Hraise; [reflexivity | discriminate].
Defined.

Lemma start_keyboard_interrupt_witness :
  let run := Worker.start ucd_latin_cyrillic loads_table 5 true None
               (wstate_fixed interrupted) in
  fst run = Ok true
  /\ Worker.count (snd run) = 0
  /\ Worker.calls (snd run)
     = [ GetQueueAttributes the_url; ReceiveMessage the_url 1 20;
         GetQueueAttributes the_url ].
Proof.
  exact (start_keyboard_interrupt ucd_latin_cyrillic loads_table
           (wstate_fixed interrupted) 4 true None interrupted
           eq_refl eq_refl eq_refl eq_refl).
Defined.

Lemma process_message_sets_fields_witness :
  exists processed,
    fst (Worker.process_message ucd_latin_cyrillic (PDict envelope_hola)
           (wstate0 [] (Ok tt))) = Ok processed
    /\ dict_get (str "original_message") processed = Some (PStr (str "Hola"))
    /\ dict_get (str "encrypted_message") processed = Some (PStr (str "Krod"))
    /\ dict_get (str "status") processed = Some (PStr (str "processed"))
    /\ dict_get (str "processed_at") processed = Some (PStr (str "2024-01-01T00:00:00"))
    /\ dict_get (str "cipher_shift") processed = Some (PInt 3).
Proof.
  exact (process_message_sets_fields ucd_latin_cyrillic
           (wstate0 [] (Ok tt)) envelope_hola (str "Hola") eq_refl).
Defined.

Lemma process_message_missing_message_witness :
  exists processed,
    fst (Worker.process_message ucd_latin_cyrillic
           (PDict [(str "timestamp", PStr (str "2023-12-31T23:59:59"))])
           (wstate0 [] (Ok tt))) = Ok processed
    /\ dict_get (str "original_message") processed = Some (PStr [])
    /\ dict_get (str "encrypted_message") processed = Some (PStr [])
    /\ dict_get (str "message") processed = None.
Proof.
  exact (process_message_missing_message ucd_latin_cyrillic loads_table
           (wstate0 [] (Ok tt))
           [(str "timestamp", PStr (str "2023-12-31T23:59:59"))] eq_refl).
Defined.

Lemma consume_message_envelope_witness :
  let st := wstate0 [msg_envelope] (Ok tt) in
  fst (Worker.consume_message ucd_latin_cyrillic loads_envelope st)
  = Ok (Some [ (str "message", PStr (str "Hola"));
               (str "timestamp", PStr (str "2023-12-31T23:59:59"));
               (str "status", PStr (str "processed"));
               (str "original_message", PStr (str "Hola"));
               (str "encrypted_message", PStr (str "Krod"));
               (str "processed_at", PStr (str "2024-01-01T00:00:00"));
               (str "cipher_shift", PInt 3) ])
  /\ Worker.count (snd (Worker.consume_message ucd_latin_cyrillic loads_envelope st)) = 0 + 1.
Proof.
  pose proof (consume_message_envelope ucd_latin_cyrillic loads_envelope
                (wstate0 [msg_envelope] (Ok tt)) msg_envelope [] (script0 [] (Ok tt))
                (script0 [] (Ok tt)) (str "Hola") (str "2023-12-31T23:59:59")
                eq_refl eq_refl eq_refl) as (Hr & Hc & _).
  split; [exact Hr | exact Hc].
Defined.

Lemma while_true_stops_at_limit_witness :
  Worker.count
    (snd (Worker.while_true ucd_latin_cyrillic loads_table 3 true (Some 1)
            (wstate0 [msg_hola] (Ok tt)))) = 1.
Proof.
  refine (while_true_stops_at_limit ucd_latin_cyrillic loads_table 1 3 _
            (wstate0 [msg_hola] (Ok tt)) _ _ eq_refl).
  - discriminate.
  - unfold Worker.count. simpl. lia.
Defined.

Lemma start_limit_reached_witness :
  let st := {| Worker.self := the_worker 2;
               Worker.env := {| sqs := script0 [msg_hola] (Ok tt); history := [] |};
               Worker.receipt_handle := None |} in
  let run := Worker.start ucd_latin_cyrillic loads_table 3 true (Some 2) st in
  Worker.count (snd run) = 2
  /\ Worker.calls (snd run) = [GetQueueAttributes the_url; GetQueueAttributes the_url]
  /\ fst run = Ok true.
Proof.
  assert (Hnz : 2 <> 0) by discriminate.
  assert (Hle : 2 <= 2) by lia.
  pose proof (start_limit_reached ucd_latin_cyrillic loads_table
                {| Worker.self := the_worker 2;
                   Worker.env := {| sqs := script0 [msg_hola] (Ok tt); history := [] |};
                   Worker.receipt_handle := None |} 2 true 2 Hnz Hle)
    as (Hcount & Hanswered & _).
  destruct (Hanswered eq_refl) as (Hcalls & Hok & _).
  split; [exact Hcount|]. split; [exact Hcalls | exact (Hok eq_refl)].
Defined.

Lemma build_entries_in_order_witness :
  let r := Producer.build_entries dumps_envelope 0 (batch_of 3)
             (pstate0 (script0 [] (Ok tt))) in
  match fst r with
  | Ok entries => map Id entries = [str "0"; str "1"; str "2"] /\ NoDup (map Id entries)
  | Raise _ => False
  end.
Proof.
  pose proof (build_entries_in_order dumps_envelope (batch_of 3) 0
                (pstate0 (script0 [] (Ok tt))) _ _ eq_refl) as (Hids & Hnd & _).
  split; [exact Hids | exact Hnd].
Defined.

(** The two clock readings of one [send_message] differ on a ticking
    clock: the envelope carries the first, the attribute the second. *)
Example send_message_two_timestamps :
  let r := ProducerSetup.send_message dumps_envelope (PStr (str "Hola"))
             (pstate_outbox (Ok (str "id-1"))) in
  fst r = Ok true
  /\ sent_bodies (sqs (Producer.env (snd r)))
     = [ (dumps_envelope (PDict (envelope (PStr (str "Hola")) (str "t0"))),
          [ (str "Timestamp", str "t1", str "String");
            (str "Source", str "producer-python", str "String") ]) ]
  /\ fst (ProducerSetup.send_message dumps_envelope (PStr (str "Hola"))
            (pstate_outbox (Raise (ClientError (str "AccessDenied")))))
     = Ok false.
Proof. repeat split. Qed.

(** ** More on the cipher and on failures inside a cycle *)

(** X1.  The round trip of shift [k] and shift [-k] gives the text back
    exactly when every character of the text that [isalpha] accepts is an
    ASCII letter. *)
Theorem caesar_cipher_round_trip_iff (U : ucd) (k : Z) (s : pystr) :
  Cipher.caesar_cipher U (- k) (Cipher.caesar_cipher U k s) = s
  <-> Forall (fun c => char_isalpha U c = true -> ascii_letter c = true) s.
Proof.
  unfold Cipher.caesar_cipher. rewrite map_map. split.
  - induction s as [|c s IH]; simpl; intros Heq; constructor.
    + injection Heq as Hc _. intros Ha.
      destruct (ascii_letter c) eqn:Hl; [reflexivity|].
      now destruct (caesar_char_inverse_fails U k c Ha Hl).
    + apply IH. now injection Heq.
  - induction 1 as [|c s Hc _ IH]; simpl; [reflexivity|].
    now rewrite caesar_char_inverse, IH.
Qed.

Section CycleFailures.
Context {S : Type} `{SQSClient S}.
Variable U : ucd.
Variable json_loads : pystr -> result pyval.

Import Worker.

Lemma consume_message_malformed_run
    (st : wstate S) (m : message) (rest : list message) (s1 : S) :
  receive_message (queue_url (self st)) 1 20 (sqs (env st)) = (Ok (m :: rest), s1) ->
  json_loads (Body m) = Raise JSONDecodeError ->
  fst (consume_message U json_loads st) = Ok None.
Proof.
  intros Hrecv Hbad. wrun. rewrite Hrecv. simpl. rewrite Hbad. simpl.
  destruct (delete_message (queue_url (self st)) (ReceiptHandle m) s1) as [[[]|e] s2];
    reflexivity.
Qed.

(** X23.  After a message on whose body [json.loads] raises
    [JSONDecodeError] the pass gives [None] to the loop like an empty
    receive: below the limit, continuous mode goes on to the next pass and
    single-run mode leaves the loop, whatever else is queued. *)
Theorem loop_body_after_malformed
    (st : wstate S) (m : message) (rest : list message) (s1 : S)
    (max_messages : option Z) :
  receive_message (queue_url (self st)) 1 20 (sqs (env st)) = (Ok (m :: rest), s1) ->
  json_loads (Body m) = Raise JSONDecodeError ->
  limit_reached max_messages (count st) = false ->
  fst (loop_body U json_loads true max_messages st) = Ok Continue
  /\ fst (loop_body U json_loads false max_messages st) = Ok Break.
Proof.
  intros Hrecv Hbad Hlimit.
  pose proof (consume_message_malformed_run st m rest s1 Hrecv Hbad) as Hnone.
  unfold loop_body, bind, gets. fold (count st). rewrite Hlimit.
  destruct (consume_message U json_loads st) as [r st1]. simpl in Hnone. subst r.
  split; reflexivity.
Qed.

(** X24.  A delete that raises something else than [ClientError] is not
    caught: the exception leaves [consume_message] after the message was
    transformed, and [processed_count] is not incremented. *)
Theorem consume_message_delete_raises
    (st : wstate S) (m : message) (rest : list message) (s1 s3 : S)
    (d : dict) (enc : pystr) (e : exn) :
  receive_message (queue_url (self st)) 1 20 (sqs (env st)) = (Ok (m :: rest), s1) ->
  json_loads (Body m) = Ok (PDict d) ->
  Cipher.caesar_cipher_dyn U (shift (self st))
    (dict_get_default (str "message") (PStr []) d) = Ok enc ->
  delete_message (queue_url (self st)) (ReceiptHandle m) (snd (now_isoformat s1))
    = (Raise e, s3) ->
  is_ClientError e = false ->
  e <> JSONDecodeError ->
  let st' := snd (consume_message U json_loads st) in
  fst (consume_message U json_loads st) = Raise e
  /\ count st' = count st
  /\ calls st' = calls st ++ [ReceiveMessage (queue_url (self st)) 1 20;
                              ProcessMessage (PDict d);
                              DeleteMessage (queue_url (self st)) (ReceiptHandle m)].
Proof.
  intros Hrecv Hjson Henc Hdel Hnc Hnj st'. subst st'.
  destruct (process_message_dict U json_loads (leased st m s1) d enc Henc)
    as (processed & Hp & _).
  unfold leased in Hp. wrun.
  rewrite Hrecv. simpl. rewrite Hjson. simpl. rewrite Hp. simpl.
  rewrite Hdel. simpl.
  destruct e; simpl in *; try discriminate; try congruence;
    rewrite <- !app_assoc; repeat split.
Qed.

End CycleFailures.

Lemma loop_body_after_malformed_witness :
  let st := wstate0 [msg_poison; msg_hola] (Ok tt) in
  fst (Worker.loop_body ucd_latin_cyrillic loads_table true None st) = Ok Worker.Continue
  /\ fst (Worker.loop_body ucd_latin_cyrillic loads_table false None st) = Ok Worker.Break.
Proof.
  exact (loop_body_after_malformed ucd_latin_cyrillic loads_table
           (wstate0 [msg_poison; msg_hola] (Ok tt)) msg_poison [] (script0 [msg_hola] (Ok tt))
           None eq_refl eq_refl eq_refl).
Defined.

Lemma consume_message_delete_raises_witness :
  let st := wstate0 [msg_hola] (Raise unreachable) in
  let st' := snd (Worker.consume_message ucd_latin_cyrillic loads_table st) in
  fst (Worker.consume_message ucd_latin_cyrillic loads_table st) = Raise unreachable
  /\ Worker.count st' = 0
  /\ Worker.calls st'
     = [ ReceiveMessage the_url 1 20;
         ProcessMessage (PDict [(str "message", PStr (str "Hola"))]);
         DeleteMessage the_url (str "rh-1") ].
Proof.
  refine (consume_message_delete_raises ucd_latin_cyrillic loads_table
            (wstate0 [msg_hola] (Raise unreachable)) msg_hola []
            (script0 [] (Raise unreachable)) (script0 [] (Raise unreachable))
            [(str "message", PStr (str "Hola"))] (str "Krod") unreachable
            eq_refl eq_refl eq_refl eq_refl eq_refl _).
  discriminate.
Defined.

(** ** A message holding a lone surrogate *)

(** Its text passes the cipher unchanged and the message is deleted and
    counted; the print of the original text then raises, in the worker's
    pass and in the producer's [send_message] after the send. *)
Example lone_surrogate_raises_at_print :
  let loads := fun _ : pystr => Ok (PDict [(str "message", PStr [55296])]) in
  let pass := Worker.loop_body ucd_latin_cyrillic loads true None
                (wstate0 [msg_hola] (Ok tt)) in
  let sent := ProducerSetup.send_message dumps_envelope (PStr [55296])
                (pstate_outbox (Ok (str "id-1"))) in
  fst pass = Raise UnicodeEncodeError
  /\ Worker.count (snd pass) = 1
  /\ existsb is_DeleteMessage (Worker.calls (snd pass)) = true
  /\ fst sent = Raise UnicodeEncodeError
  /\ List.length (sent_bodies (sqs (Producer.env (snd sent)))) = 1%nat.
Proof. repeat split. Qed.
